(** * script.js: scroll reveal, header throttle, navigation toggle and guarded start-up

    A shallow embedding of the page-enhancement script.  The source file
    holds two versions of the script, one after the other: the first
    (lines 1-881, [Module V1]) and the second (lines 882-1514,
    [Module V2]).  Functions that are textually the same in both versions
    are embedded once.

    What is modelled: the element tree (tag, id, class list, attributes,
    bounding-box top), the window's scroll position and height, the
    script's global variables, listener registration, the animation-frame
    queue, timers, console output and thrown exceptions.  Inline styles and
    the text of text nodes are not part of the page state: an assignment to
    [textContent] is modelled by what it does to the element tree, and the
    text of the typing effect is kept by [Module TypeWriter], as UTF-16
    code units.  Layout is read from a
    snapshot: the offsets an event handler sees do not move while that
    handler runs.

    The first version declares [navMenu] twice with [const] at its top
    level (lines 382 and 632), which a JavaScript engine rejects before it
    runs anything, and it calls [throttle] on line 454, above the [const]
    that defines it (line 849).  Its functions are embedded as they are
    written, and no top level is embedded for it.  The top level of the
    second version is [V2.script]. *)

From Stdlib Require Import QArith Lqa.
From stdpp Require Import base list strings.

(** ** Numbers

    Layout offsets and scroll positions are IEEE doubles in the source.
    Every finite double is a rational, and the comparisons the script makes
    ([t < h - 100], [t > -h/2], [y > 50]) are exact on them, so offsets are
    modelled in [Q]. *)

Definition Qltb (x y : Q) : bool := negb (Qle_bool y x).

Lemma Qltb_lt (x y : Q) : Qltb x y = true ↔ (x < y)%Q.
Proof.
  unfold Qltb. rewrite negb_true_iff, <- not_true_iff_false, Qle_bool_iff.
  split; [apply Qnot_le_lt | apply Qlt_not_le].
Qed.

Lemma Qltb_ge (x y : Q) : Qltb x y = false ↔ (y <= x)%Q.
Proof.
  unfold Qltb. rewrite negb_false_iff. apply Qle_bool_iff.
Qed.

(** ** DOMTokenList: the [classList] of an element

    An ordered set of tokens.  [add] appends a token that is absent,
    [remove] deletes it, [toggle] flips it. *)

Module DOMTokenList.

Definition contains (c : string) (cl : list string) : bool :=
    existsb (String.eqb c) cl.

Definition add_token (cl : list string) (c : string) : list string :=
    if contains c cl then cl else cl ++ [c].

Fixpoint remove_token (cl : list string) (c : string) : list string :=
    match cl with
    | [] => []
    | x :: r => if String.eqb x c then remove_token r c else x :: remove_token r c
    end.

  (** [classList.add(t1, t2, ...)] and [classList.remove(t1, t2, ...)]. *)
Definition add (tokens : list string) (cl : list string) : list string :=
    foldl add_token cl tokens.

Definition remove (tokens : list string) (cl : list string) : list string :=
    foldl remove_token cl tokens.

Definition toggle (c : string) (cl : list string) : list string :=
    if contains c cl then remove_token cl c else cl ++ [c].

End DOMTokenList.

Import DOMTokenList.

(** ** Elements and documents

    A document is the list of its elements in tree order; [depth] is the
    nesting depth, so the descendants of an element are the elements that
    follow it for as long as their depth is greater.  A reference to an
    element held by the script is its position in that list. *)

Record element := Element {
  localName : string;                    (* tag name, lower case *)
  ident : string;                        (* the id attribute *)
  classList : list string;
  attributes : list (string * string);
  depth : nat;
  rectTop : Q                            (* getBoundingClientRect().top *)
}.

Definition with_classes (f : list string → list string) (e : element) : element :=
  Element (localName e) (ident e) (f (classList e)) (attributes e) (depth e) (rectTop e).

Definition with_attribute (k v : string) (e : element) : element :=
  Element (localName e) (ident e) (classList e)
          ((k, v) :: List.filter (fun kv => negb (String.eqb (fst kv) k)) (attributes e))
          (depth e) (rectTop e).

Definition with_top (t : Q) (e : element) : element :=
  Element (localName e) (ident e) (classList e) (attributes e) (depth e) t.

Definition has_class (c : string) (e : element) : bool := contains c (classList e).
Definition is_tag (t : string) (e : element) : bool := String.eqb (localName e) t.
Definition has_id (i : string) (e : element) : bool := String.eqb (ident e) i.
Definition has_attribute (k : string) (e : element) : bool :=
  existsb (fun kv => String.eqb (fst kv) k) (attributes e).

(** [querySelectorAll]: the positions of the matching elements, in
    document order. *)
Fixpoint matching_from (sel : element → bool) (k : nat) (d : list element) : list nat :=
  match d with
  | [] => []
  | e :: r => if sel e then k :: matching_from sel (S k) r else matching_from sel (S k) r
  end.

Definition querySelectorAll (sel : element → bool) (d : list element) : list nat :=
  matching_from sel 0 d.

Definition querySelector (sel : element → bool) (d : list element) : option nat :=
  head (querySelectorAll sel d).

Definition getElementById (i : string) (d : list element) : option nat :=
  querySelector (has_id i) d.

(** The number of elements at the front of [l] nested deeper than [dp]. *)
Fixpoint subtree_len (dp : nat) (l : list element) : nat :=
  match l with
  | [] => 0
  | e :: r => if (dp <? depth e)%nat then S (subtree_len dp r) else 0
  end.

Definition descendants (d : list element) (i : nat) : list nat :=
  match d !! i with
  | Some e => seq (S i) (subtree_len (depth e) (drop (S i) d))
  | None => []
  end.

Definition matches_at (sel : element → bool) (d : list element) (j : nat) : bool :=
  match d !! j with
  | Some e => sel e
  | None => false
  end.

(** [root.querySelectorAll(sel)] and [root.querySelector(sel)]. *)
Definition querySelectorAllIn (d : list element) (root : nat) (sel : element → bool) : list nat :=
  List.filter (matches_at sel d) (descendants d root).

Definition querySelectorIn (d : list element) (root : nat) (sel : element → bool) : option nat :=
  head (querySelectorAllIn d root sel).

(** [:first-child] and [:last-child]. *)
Definition is_first_child (d : list element) (j : nat) : bool :=
  match d !! j with
  | Some e =>
      match j with
      | O => true
      | S j' => match d !! j' with
                | Some prev => (depth prev <? depth e)%nat
                | None => false
                end
      end
  | None => false
  end.

Definition is_last_child (d : list element) (j : nat) : bool :=
  match d !! j with
  | Some e =>
      match d !! (S j + subtree_len (depth e) (drop (S j) d))%nat with
      | Some next => (depth next <? depth e)%nat
      | None => true
      end
  | None => false
  end.

(** ** The page: document, window, script globals and host queues *)

Inductive exn :=
  | TypeError (msg : string)
  | ReferenceError (msg : string).

Inductive target := Window | Document | Node (i : nat).

(** The closures the script registers as event listeners. *)
Inductive handler :=
  | NavToggleClick | NavLinkClose | OnScroll | BackToTopScroll | BackToTopClick
  | NavLinkSmoothScroll | EscapeKeydown | AriaExpandedClick
  | ErrorLog | ImageError | TikTokError | LoadPerformance | RevealScroll
  | InitMobileMenu | InitMobileMenuClose | InitializeApp
  | ScrollProgressUpdate | AnchorClick | KeyboardShortcuts | LoaderHide
  | TrackButton | GlobalError | UnhandledRejection.

(** The callbacks the embedded functions hand to [requestAnimationFrame]. *)
Inductive callback := UpdateHeader.

(** Pending [setTimeout] callbacks, with their delay in milliseconds. *)
Inductive task :=
  | AddClasses (delay : Z) (node : nat) (tokens : list string)
  | ThrottleReset (delay : Z)
  | TypeWriterType (node : nat).

Inductive observer := InViewObserver | SectionViewObserver | LazyImageObserver.

Inductive entry :=
  | ConsoleLog (msg : string)
  | ConsoleError (msg : string) (e : exn).

Record page := Page {
  dom : list element;
  scrollY : Q;                       (* window.scrollY, window.pageYOffset *)
  innerHeight : Q;                   (* window.innerHeight *)
  loading : bool;                    (* document.readyState === 'loading' *)
  navToggle : option nat;
  navMenu : option nat;
  navLinks : list nat;
  header : option nat;
  backToTopButton : option nat;
  ticking : bool;
  lastScrollY : Q;
  inThrottle : bool;                 (* the flag of the throttled back-to-top listener *)
  listeners : list (target * string * handler);
  rafQueue : list callback;
  timers : list task;
  observed : list (observer * nat);
  console : list entry
}.

Definition set_dom (d : list element) (p : page) : page :=
  Page d (scrollY p) (innerHeight p) (loading p) (navToggle p) (navMenu p) (navLinks p)
       (header p) (backToTopButton p) (ticking p) (lastScrollY p) (inThrottle p)
       (listeners p) (rafQueue p) (timers p) (observed p) (console p).

Definition set_scrollY (y : Q) (p : page) : page :=
  Page (dom p) y (innerHeight p) (loading p) (navToggle p) (navMenu p) (navLinks p)
       (header p) (backToTopButton p) (ticking p) (lastScrollY p) (inThrottle p)
       (listeners p) (rafQueue p) (timers p) (observed p) (console p).

Definition set_innerHeight (h : Q) (p : page) : page :=
  Page (dom p) (scrollY p) h (loading p) (navToggle p) (navMenu p) (navLinks p)
       (header p) (backToTopButton p) (ticking p) (lastScrollY p) (inThrottle p)
       (listeners p) (rafQueue p) (timers p) (observed p) (console p).

Definition set_ticking (b : bool) (p : page) : page :=
  Page (dom p) (scrollY p) (innerHeight p) (loading p) (navToggle p) (navMenu p) (navLinks p)
       (header p) (backToTopButton p) b (lastScrollY p) (inThrottle p)
       (listeners p) (rafQueue p) (timers p) (observed p) (console p).

Definition set_lastScrollY (y : Q) (p : page) : page :=
  Page (dom p) (scrollY p) (innerHeight p) (loading p) (navToggle p) (navMenu p) (navLinks p)
       (header p) (backToTopButton p) (ticking p) y (inThrottle p)
       (listeners p) (rafQueue p) (timers p) (observed p) (console p).

Definition set_inThrottle (b : bool) (p : page) : page :=
  Page (dom p) (scrollY p) (innerHeight p) (loading p) (navToggle p) (navMenu p) (navLinks p)
       (header p) (backToTopButton p) (ticking p) (lastScrollY p) b
       (listeners p) (rafQueue p) (timers p) (observed p) (console p).

Definition set_listeners (l : list (target * string * handler)) (p : page) : page :=
  Page (dom p) (scrollY p) (innerHeight p) (loading p) (navToggle p) (navMenu p) (navLinks p)
       (header p) (backToTopButton p) (ticking p) (lastScrollY p) (inThrottle p)
       l (rafQueue p) (timers p) (observed p) (console p).

Definition set_rafQueue (q : list callback) (p : page) : page :=
  Page (dom p) (scrollY p) (innerHeight p) (loading p) (navToggle p) (navMenu p) (navLinks p)
       (header p) (backToTopButton p) (ticking p) (lastScrollY p) (inThrottle p)
       (listeners p) q (timers p) (observed p) (console p).

Definition set_timers (t : list task) (p : page) : page :=
  Page (dom p) (scrollY p) (innerHeight p) (loading p) (navToggle p) (navMenu p) (navLinks p)
       (header p) (backToTopButton p) (ticking p) (lastScrollY p) (inThrottle p)
       (listeners p) (rafQueue p) t (observed p) (console p).

Definition set_observed (o : list (observer * nat)) (p : page) : page :=
  Page (dom p) (scrollY p) (innerHeight p) (loading p) (navToggle p) (navMenu p) (navLinks p)
       (header p) (backToTopButton p) (ticking p) (lastScrollY p) (inThrottle p)
       (listeners p) (rafQueue p) (timers p) o (console p).

Definition set_console (c : list entry) (p : page) : page :=
  Page (dom p) (scrollY p) (innerHeight p) (loading p) (navToggle p) (navMenu p) (navLinks p)
       (header p) (backToTopButton p) (ticking p) (lastScrollY p) (inThrottle p)
       (listeners p) (rafQueue p) (timers p) (observed p) c.

(** A page on which the script has not run yet. *)
Definition fresh_page (d : list element) (y h : Q) (is_loading : bool) : page :=
  Page d y h is_loading None None [] None None false 0%Q false [] [] [] [] [].

(** Host operations. *)
Definition update_node (i : nat) (f : element → element) (p : page) : page :=
  set_dom (alter f i (dom p)) p.

Definition addEventListener (t : target) (type : string) (h : handler) (p : page) : page :=
  set_listeners (listeners p ++ [(t, type, h)]) p.

Definition requestAnimationFrame (c : callback) (p : page) : page :=
  set_rafQueue (rafQueue p ++ [c]) p.

Definition setTimeout (t : task) (p : page) : page :=
  set_timers (timers p ++ [t]) p.

Definition observe (o : observer) (i : nat) (p : page) : page :=
  set_observed (observed p ++ [(o, i)]) p.

Definition console_log (msg : string) (p : page) : page :=
  set_console (console p ++ [ConsoleLog msg]) p.

Definition console_error (msg : string) (e : exn) (p : page) : page :=
  set_console (console p ++ [ConsoleError msg e]) p.

(** [nodes.forEach(body)] over a static node list. *)
Definition forEach {A : Type} (nodes : list nat) (body : nat → A → A) (a : A) : A :=
  foldl (fun acc i => body i acc) a nodes.

(** ** Statements that may throw *)

Inductive outcome (A : Type) :=
  | Normal (a : A)
  | Thrown (e : exn).
Arguments Normal {A} a.
Arguments Thrown {A} e.

Definition js (A : Type) : Type := page → outcome A * page.

Definition ret {A : Type} (a : A) : js A := fun p => (Normal a, p).

Definition bind {A B : Type} (m : js A) (k : A → js B) : js B :=
  fun p => match m p with
           | (Normal a, p') => k a p'
           | (Thrown e, p') => (Thrown e, p')
           end.

Definition throw {A : Type} (e : exn) : js A := fun p => (Thrown e, p).

(** A statement that cannot throw. *)
Definition run (f : page → page) : js unit := fun p => (Normal tt, f p).

Definition try_catch (body : js unit) (on_error : exn → js unit) : js unit :=
  fun p => match body p with
           | (Normal a, p') => (Normal a, p')
           | (Thrown e, p') => on_error e p'
           end.

Notation "m >> k" := (bind m (fun _ => k)) (at level 90, right associativity).

(** ** Header scroll effect and its animation-frame throttle
    (lines 421-444 and 1222-1245, the same text in both versions) *)

Definition updateHeader (p : page) : page :=
  let currentScrollY := scrollY p in
  let p1 :=
    match header p with
    | Some hd =>
        if Qltb 50 currentScrollY
        then update_node hd (with_classes (add ["scrolled"])) p
        else update_node hd (with_classes (remove ["scrolled"])) p
    | None => p
    end in
  set_ticking false (set_lastScrollY currentScrollY p1).

Definition onScroll (p : page) : page :=
  if negb (ticking p)
  then set_ticking true (requestAnimationFrame UpdateHeader p)
  else p.

Definition run_callback (c : callback) (p : page) : page :=
  match c with
  | UpdateHeader => updateHeader p
  end.

(** One rendered frame: the host takes the callbacks queued so far, empties
    the queue and runs them in order.  The second component lists the
    callbacks that ran in this tick. *)
Definition animation_frame (p : page) : page * list callback :=
  (foldl (fun acc c => run_callback c acc) (set_rafQueue [] p) (rafQueue p), rafQueue p).

(** The events that drive the header: a scroll to position [y], which fires
    the [scroll] listener [onScroll], and a frame tick.  No other function
    of the script writes [ticking], requests [updateHeader] or touches the
    ['scrolled'] token. *)
Inductive scroll_event := Scroll (y : Q) | Frame.

Definition header_step (p : page) (ev : scroll_event) : page :=
  match ev with
  | Scroll y => onScroll (set_scrollY y p)
  | Frame => fst (animation_frame p)
  end.

Definition header_run (evs : list scroll_event) (p : page) : page :=
  foldl header_step p evs.

(** How many times [updateHeader] ran in each frame tick of [evs]. *)
Fixpoint executions_per_tick (evs : list scroll_event) (p : page) : list nat :=
  match evs with
  | [] => []
  | Scroll y :: r => executions_per_tick r (header_step p (Scroll y))
  | Frame :: r => length (snd (animation_frame p)) :: executions_per_tick r (header_step p Frame)
  end.

(** The state the top level leaves behind: [let ticking = false] and no
    frame requested (the first [updateHeader()] is a direct call). *)
Definition settled (p : page) : page := set_ticking false (set_rafQueue [] p).

(** ** Back-to-top button (lines 452-473 and 1253-1274) and [throttle] *)

Definition backToTop_update (p : page) : page :=
  match backToTopButton p with
  | None => p
  | Some b =>
      if Qltb 300 (scrollY p)
      then update_node b (with_classes (add ["show"])) p
      else update_node b (with_classes (remove ["show"])) p
  end.

(** [throttle(func, limit)] applied to the back-to-top update. *)
Definition throttle (func : page → page) (limit : Z) (p : page) : page :=
  if negb (inThrottle p)
  then setTimeout (ThrottleReset limit) (set_inThrottle true (func p))
  else p.

Definition backToTop_scroll : page → page := throttle backToTop_update 100.

(** ** Mobile menu toggle

    The click listener of lines 395-404; lines 1177-1188 have the same body
    after [e.preventDefault()] and [e.stopPropagation()]. *)

Definition null_deref (what : string) : exn :=
  TypeError ("Cannot read properties of null: " ++ what).

Definition navToggle_click : js unit := fun p =>
  match navMenu p with
  | None => (Thrown (null_deref "navMenu.classList"), p)
  | Some m =>
      let p1 := update_node m (with_classes (toggle "active")) p in
      match navToggle p1 with
      | None => (Thrown (null_deref "navToggle.querySelector"), p1)
      | Some t =>
          match querySelectorIn (dom p1) t (is_tag "i") with
          | Some icon =>
              (Normal tt,
               update_node icon (with_classes (toggle "fa-times"))
                 (update_node icon (with_classes (toggle "fa-bars")) p1))
          | None => (Normal tt, p1)
          end
      end
  end.

(** ** Scroll reveal *)

Definition sel_reveal (e : element) : bool :=
  has_class "reveal" e || has_class "reveal-left" e || has_class "reveal-right" e.

Definition reveal_element (windowHeight : Q) (e : element) : element :=
  let elementTop := rectTop e in
  if Qltb elementTop (windowHeight - 100)
  then with_classes (add ["active"]) e
  else e.

Definition reveal_pass (windowHeight : Q) (d : list element) : list element :=
  forEach (querySelectorAll sel_reveal d) (fun i acc => alter (reveal_element windowHeight) i acc) d.

(** ** Start-up *)

Definition attribute (k : string) (e : element) : option string :=
  snd <$> List.find (fun kv => String.eqb (fst kv) k) (attributes e).

Definition add_class (c : string) (i : nat) (p : page) : page :=
  update_node i (with_classes (add [c])) p.

Definition add_class_if_found (c : string) (target : option nat) (p : page) : page :=
  match target with
  | Some i => add_class c i p
  | None => p
  end.

(** [document.body]; [null] while the parser has not reached the body. *)
Definition document_body (d : list element) : option nat :=
  querySelector (is_tag "body") d.

Definition nested (under : nat) (e : element) : element :=
  Element (localName e) (ident e) (classList e) (attributes e) (under + depth e) (rectTop e).

(** [parent.appendChild(root)]: the new subtree, given with depths relative
    to its root, goes after the last descendant of [parent]. *)
Definition appendChild (parent : nat) (subtree : list element) (d : list element) : list element :=
  match d !! parent with
  | Some pe =>
      let pos := (S parent + subtree_len (depth pe) (drop (S parent) d))%nat in
      take pos d ++ map (nested (S (depth pe))) subtree ++ drop pos d
  | None => d
  end.

Definition append_to_body (what : string) (subtree : list element) : js unit := fun p =>
  match document_body (dom p) with
  | Some b => (Normal tt, set_dom (appendChild b subtree (dom p)) p)
  | None => (Thrown (null_deref what), p)
  end.

(** The "DOM Elements" block (lines 380-391 and 1135-1146). *)
Definition bind_globals (p : page) : page :=
  Page (dom p) (scrollY p) (innerHeight p) (loading p)
       (getElementById "nav-toggle" (dom p))
       (getElementById "nav-menu" (dom p))
       (querySelectorAll (has_class "nav__link") (dom p))
       (getElementById "header" (dom p))
       (getElementById "back-to-top" (dom p))
       false (scrollY p) (inThrottle p)
       (listeners p) (rafQueue p) (timers p) (observed p) (console p).

(** Lines 536-571 and 1291-1326. *)
Definition initRevealAnimations (p : page) : page :=
  let heroContent := querySelector (has_class "hero__content") (dom p) in
  let heroImage := querySelector (has_class "hero__image") (dom p) in
  let p := add_class_if_found "reveal-left" heroContent p in
  let p := add_class_if_found "reveal-right" heroImage p in
  let columns := querySelectorAll (has_class "education-martial__column") (dom p) in
  let educationColumn := head (List.filter (is_first_child (dom p)) columns) in
  let martialColumn := head (List.filter (is_last_child (dom p)) columns) in
  let p := add_class_if_found "reveal-left" educationColumn p in
  let p := add_class_if_found "reveal-right" martialColumn p in
  let experienceCards := querySelectorAll (has_class "experience__card") (dom p) in
  let p := forEach experienceCards (add_class "reveal") p in
  let tiktokItems := querySelectorAll (has_class "tiktok__item") (dom p) in
  let p := forEach tiktokItems (add_class "reveal") p in
  let footerSections :=
    querySelectorAll (fun e => has_class "footer__info" e || has_class "footer__qr" e
                               || has_class "footer__social" e) (dom p) in
  forEach footerSections (add_class "reveal") p.

(** Lines 574-628 and 1329-1383: one click listener per navigation link. *)
Definition smoothScroll (p : page) : page :=
  match navLinks p with
  | [] => p
  | links => forEach links (fun link => addEventListener (Node link) "click" NavLinkSmoothScroll) p
  end.

(** Lines 711-729 and 1386-1404. *)
Definition lazyLoadImages (p : page) : page :=
  let images := querySelectorAll (fun e => is_tag "img" e && has_attribute "data-src" e) (dom p) in
  forEach images (fun img acc => observe LazyImageObserver img (add_class "loading" img acc)) p.

(** Lines 750-770 and 1416-1436. *)
Definition enhanceAccessibility : js unit := fun p =>
  let p := addEventListener Document "keydown" EscapeKeydown p in
  match navToggle p with
  | None => (Thrown (null_deref "navToggle.setAttribute"), p)
  | Some t =>
      let p := update_node t (with_attribute "aria-label" "Toggle navigation menu") p in
      let p := update_node t (with_attribute "aria-expanded" "false") p in
      (Normal tt, addEventListener (Node t) "click" AriaExpandedClick p)
  end.

(** Lines 773-796 and 1439-1459. *)
Definition handleError (p : page) : page :=
  let p := addEventListener Window "error" ErrorLog p in
  let images := querySelectorAll (is_tag "img") (dom p) in
  let p := forEach images (fun img => addEventListener (Node img) "error" ImageError) p in
  addEventListener Window "error" TikTokError p.

(** Lines 732-747 and 1407-1413. *)
Definition measurePerformance (p : page) : page :=
  addEventListener Window "load" LoadPerformance p.

Definition init_error : string := "Error initializing website:".

(** The feature classes that both versions share.  [loader_markup] is the
    element tree of lines 197-208. *)
Definition loader_markup : list element :=
  [Element "div" "" ["page-loader"] [] 0 0;
   Element "div" "" ["loader-content"] [] 1 0;
   Element "div" "" ["loader-dots"] [] 2 0;
   Element "div" "" ["loader-dot"] [] 3 0;
   Element "div" "" ["loader-dot"] [] 3 0;
   Element "div" "" ["loader-dot"] [] 3 0;
   Element "div" "" ["loader-text"] [] 2 0].

(** [new PerformanceObserver()] (lines 118-151 and 885-918). *)
Definition new_PerformanceObserver (p : page) : page :=
  let nodes :=
    querySelectorAll (fun e => is_tag "section" e || has_class "section-group" e
                               || has_class "degree-card" e || has_class "job-card" e) (dom p) in
  forEach nodes (observe InViewObserver) p.

(** [new KeyboardNavigation()] (lines 154-187 and 921-954). *)
Definition new_KeyboardNavigation (p : page) : page :=
  addEventListener Document "keydown" KeyboardShortcuts p.

(** [new LoadingAnimation()] (lines 190-225 and 957-992): the loader is
    appended to the body, then the [load] listener is registered. *)
Definition new_LoadingAnimation : js unit :=
  append_to_body "document.body.appendChild" loader_markup
  >> run (addEventListener Window "load" LoaderHide).

(** [new AnalyticsTracker()] (lines 228-294 and 995-1061). *)
Definition new_AnalyticsTracker (p : page) : page :=
  let p := console_log "Page View:" p in
  let buttons := querySelectorAll (has_class "btn") (dom p) in
  let p := forEach buttons (fun btn => addEventListener (Node btn) "click" TrackButton) p in
  forEach (querySelectorAll (is_tag "section") (dom p)) (observe SectionViewObserver) p.

(** [new ErrorHandler()] (lines 297-345 and 1064-1112). *)
Definition new_ErrorHandler (p : page) : page :=
  addEventListener Window "unhandledrejection" UnhandledRejection
    (addEventListener Window "error" GlobalError p).

(** ** The second version (lines 882-1514) *)

Module V2.

(** Lines 1277-1288. *)
Definition revealOnScroll (p : page) : page :=
  set_dom (reveal_pass (innerHeight p) (dom p)) p.

(** Lines 1115-1130, called at the top level on line 1133. *)
Definition initProfessionalFeatures : js unit :=
  run new_PerformanceObserver
  >> run new_KeyboardNavigation
  >> new_LoadingAnimation
  >> run new_AnalyticsTracker
  >> run new_ErrorHandler.

(** Lines 1175-1190. *)
Definition initMobileMenu (p : page) : page :=
  match navToggle p, navMenu p with
  | Some t, Some _ => addEventListener (Node t) "click" NavToggleClick p
  | _, _ => p
  end.

(** Lines 1200-1213. *)
Definition initMobileMenuClose (p : page) : page :=
  forEach (navLinks p) (fun link => addEventListener (Node link) "click" NavLinkClose) p.

(** The statements inside the [try] of lines 1474-1489. *)
Definition setup_steps : js unit :=
  run initRevealAnimations
  >> run smoothScroll
  >> run lazyLoadImages
  >> enhanceAccessibility
  >> run handleError
  >> run measurePerformance
  >> run (addEventListener Window "scroll" RevealScroll)
  >> run V2.revealOnScroll.

(** Lines 1473-1493. *)
Definition initializeApp : js unit :=
  try_catch setup_steps (fun error => run (console_error init_error error)).

(** Lines 1462-1471. *)
Definition init : js unit := fun p =>
  if loading p
  then (Normal tt, addEventListener Document "DOMContentLoaded" InitializeApp p)
  else initializeApp p.

(** The top-level statements of the second version, in order. *)
Definition script : js unit :=
  initProfessionalFeatures
  >> run bind_globals
  >> run (fun p => if loading p
                 then addEventListener Document "DOMContentLoaded" InitMobileMenu p
                 else initMobileMenu p)
  >> run (fun p => if loading p
                 then addEventListener Document "DOMContentLoaded" InitMobileMenuClose p
                 else initMobileMenuClose p)
  >> run updateHeader
  >> run (addEventListener Window "scroll" OnScroll)
  >> run (addEventListener Window "scroll" BackToTopScroll)
  >> run (fun p => match backToTopButton p with
                 | Some b => addEventListener (Node b) "click" BackToTopClick p
                 | None => p
                 end)
  >> init.

End V2.

(** ** The first version (lines 1-881) *)

Module V1.

Definition in_band (windowHeight sectionTop : Q) : bool :=
  Qltb sectionTop (windowHeight - 50) && Qltb (- windowHeight / 2) sectionTop.

Definition sel_card (e : element) : bool :=
  has_class "degree-card" e || has_class "job-card" e.

(** What the section loop does to the section itself. *)
Definition highlight_section (windowHeight : Q) (section : element) : element :=
  let sectionTop := rectTop section in
  if in_band windowHeight sectionTop then
    let s1 := with_classes (add ["section-highlight"; "active"]) section in
    if has_class "education-career" s1
    then with_classes (add ["section-glow"]) s1
    else s1
  else with_classes (remove ["section-highlight"; "active"; "section-glow"]) section.

(** The timers the section loop starts for the groups and cards inside
    a section that is in the band. *)
Definition section_timers (d : list element) (section : nat) : list task :=
  imap (fun index group => AddClasses (Z.of_nat index * 200) group ["active"])
       (querySelectorAllIn d section (has_class "section-group"))
  ++ imap (fun index card => AddClasses (Z.of_nat index * 100) card ["card-highlight"; "active"])
          (querySelectorAllIn d section sel_card)
  ++ match querySelectorIn d section (has_class "martial-belt-card") with
     | Some beltCard => [AddClasses 400 beltCard ["section-pulse"; "active"]]
     | None => []
     end.

Definition section_step (windowHeight : Q) (i : nat)
    (st : list element * list task) : list element * list task :=
  match st.1 !! i with
  | Some section =>
      let d' := alter (highlight_section windowHeight) i st.1 in
      (d', if in_band windowHeight (rectTop section)
           then st.2 ++ section_timers d' i
           else st.2)
  | None => st
  end.

(** Lines 476-533. *)
Definition revealOnScroll (p : page) : page :=
  let sections := querySelectorAll (is_tag "section") (dom p) in
  let d1 := reveal_pass (innerHeight p) (dom p) in
  let st := forEach sections (section_step (innerHeight p)) (d1, timers p) in
  set_timers st.2 (set_dom st.1 p).

(** [element.textContent = ...] (line 24): the assignment replaces the
    children of the element by one text node, so the child elements leave
    the document.  The text itself is not part of the page state. *)
Definition set_textContent (node : nat) (d : list element) : list element :=
  match d !! node with
  | Some e =>
      take (S node) d ++ drop (S node + subtree_len (depth e) (drop (S node) d)) d
  | None => d
  end.

(** [new TypeWriter(heroTitle, ...)] (lines 4-40, 350-353): the first call
    of [type()] writes the text and leaves one timer pending.  It is the
    first statement of [initProfessionalFeatures], which the script calls
    (line 378) before it takes any reference to an element, so no position
    held by the page lies behind the removed elements. *)
Definition new_TypeWriter (p : page) : page :=
  match querySelector (has_class "hero__title--highlight") (dom p) with
  | Some heroTitle =>
      setTimeout (TypeWriterType heroTitle)
        (set_dom (set_textContent heroTitle (dom p)) p)
  | None => p
  end.

(** [new ScrollProgress()] (lines 43-68). *)
Definition new_ScrollProgress : js unit :=
  append_to_body "document.body.appendChild"
  [Element "div" "" ["scroll-progress"] [] 0 0;
   Element "div" "" ["scroll-progress__bar"] [] 1 0]
  >> run (addEventListener Window "scroll" ScrollProgressUpdate).

(** [new SmoothScroll()] (lines 71-115): a click listener on every
    [a[href^="#"]]. *)
Definition new_SmoothScroll (p : page) : page :=
  let anchors :=
  querySelectorAll (fun e => is_tag "a" e
                             && match attribute "href" e with
                                | Some v => String.prefix "#" v
                                | None => false
                                end) (dom p) in
  forEach anchors (fun link => addEventListener (Node link) "click" AnchorClick) p.

(** Lines 348-375, called at the top level on line 378. *)
Definition initProfessionalFeatures : js unit :=
  run new_TypeWriter
  >> new_ScrollProgress
  >> run new_SmoothScroll
  >> run new_PerformanceObserver
  >> run new_KeyboardNavigation
  >> new_LoadingAnimation
  >> run new_AnalyticsTracker
  >> run new_ErrorHandler.

(** [highlightActiveSection] is called on lines 822 and 827 and declared
  nowhere in the file.  [None] stands for an undeclared global, whose
  call throws a [ReferenceError]; [Some f] for a function the page
  supplies. *)
Definition call_global (name : string) (f : option (js unit)) : js unit :=
  match f with
  | Some body => body
  | None => throw (ReferenceError (name ++ " is not defined"))
  end.

(** The statements inside the [try] of lines 811-830. *)
Definition setup_steps (highlightActiveSection : option (js unit)) : js unit :=
  run initRevealAnimations
  >> run smoothScroll
  >> run lazyLoadImages
  >> enhanceAccessibility
  >> run handleError
  >> run measurePerformance
  >> run (addEventListener Window "scroll" RevealScroll)
  >> run V1.revealOnScroll
  >> call_global "highlightActiveSection" highlightActiveSection
  >> run (console_log "Website initialized successfully").

(** Lines 810-834. *)
Definition initializeApp (highlightActiveSection : option (js unit)) : js unit :=
  try_catch (setup_steps highlightActiveSection)
          (fun error => run (console_error init_error error)).

End V1.

(** ** A browsing session seen by the reveal evaluator

    Between two runs the layout may change (scrolling, resizing) and
    pending timers may fire. *)

Inductive version := First | Second.

Definition revealOnScroll_of (v : version) : page → page :=
  match v with
  | First => V1.revealOnScroll
  | Second => V2.revealOnScroll
  end.

Definition relayout (h : Q) (tops : list Q) (p : page) : page :=
  set_innerHeight h
    (set_dom (imap (fun j e => match tops !! j with
                               | Some t => with_top t e
                               | None => e
                               end) (dom p)) p).

(** A [TypeWriterType] timer is pending only after the constructor's call
    of [type()], which has emptied the element; the later calls write the
    text again, change no element and set the next timer. *)
Definition run_task (t : task) (p : page) : page :=
  match t with
  | AddClasses _ node tokens => update_node node (with_classes (add tokens)) p
  | ThrottleReset _ => set_inThrottle false p
  | TypeWriterType node => setTimeout (TypeWriterType node) p
  end.

Definition fire_timer (k : nat) (p : page) : page :=
  match timers p !! k with
  | Some t => run_task t (set_timers (delete k (timers p)) p)
  | None => p
  end.

Inductive reveal_event :=
  | Layout (h : Q) (tops : list Q)
  | Evaluate
  | TimerFires (k : nat).

Definition reveal_step (v : version) (p : page) (ev : reveal_event) : page :=
  match ev with
  | Layout h tops => relayout h tops p
  | Evaluate => revealOnScroll_of v p
  | TimerFires k => fire_timer k p
  end.

Definition reveal_run (v : version) (evs : list reveal_event) (p : page) : page :=
  foldl (reveal_step v) p evs.

(** What one run of the evaluator does to a single element: the reveal
    loop visits the reveal-tagged elements, the first version's section
    loop then visits the [section] elements. *)
Definition revealed (windowHeight : Q) (e : element) : element :=
  if sel_reveal e then reveal_element windowHeight e else e.

Definition evaluated_first (windowHeight : Q) (e : element) : element :=
  if is_tag "section" e
  then V1.highlight_section windowHeight (revealed windowHeight e)
  else revealed windowHeight e.

(** ** Sample pages and the throttle invariant *)

Definition highlight_page : page :=
  fresh_page [Element "section" "about" ["section"] [] 1 300] 0 800 false.

Definition card_page : page :=
  fresh_page [Element "div" "" ["experience__card"; "reveal"] [] 3 700] 0 800 false.

Definition tagged_section_page : page :=
  fresh_page [Element "section" "contact" ["reveal"] [] 1 720] 0 800 false.

Definition revealed_section_page : page :=
  fresh_page [Element "section" "contact" ["reveal"; "active"; "section-highlight"] [] 1 100]
             0 800 false.

Definition revealed_card_page : page :=
  fresh_page [Element "div" "" ["experience__card"; "reveal"; "active"] [] 3 100] 0 800 false.

Definition header_page (y : Q) (classes : list string) : page :=
  Page [Element "header" "header" classes [] 1 0] y 800 false
       None None [] (Some 0%nat) None false 0 false [] [] [] [] [].

(** While a frame is requested the flag is up, and the queue holds that
    one request; otherwise both are clear. *)
Definition throttle_inv (p : page) : Prop :=
  rafQueue p = if ticking p then [UpdateHeader] else [].

Definition menu_page (menu_classes : list string) : page :=
  Page [Element "button" "nav-toggle" ["nav__toggle"] [] 2 0;
        Element "i" "" ["fas"; "fa-bars"] [] 3 0;
        Element "ul" "nav-menu" menu_classes [] 2 0]
       0 800 false (Some 0%nat) (Some 2%nat) [] None None false 0 false [] [] [] [] [].

(** A document with a header, a menu, a link, a card and a back-to-top
    button, with or without the toggle button. *)
Definition body_with (toggle : list element) : list element :=
  [Element "html" "" [] [] 0 0;
   Element "body" "" [] [] 1 0;
   Element "header" "header" ["header"] [] 2 0]
  ++ toggle ++
  [Element "ul" "nav-menu" ["nav__menu"] [] 3 0;
   Element "a" "" ["nav__link"] [("href", "#experience")] 4 0;
   Element "section" "experience" ["section"] [] 2 900;
   Element "div" "" ["experience__card"] [] 3 300;
   Element "a" "back-to-top" ["back-to-top"] [("href", "#")] 2 0].

Definition toggle_button : list element :=
  [Element "button" "nav-toggle" ["nav__toggle"] [] 3 0].

Definition loaded_page (d : list element) : page :=
  bind_globals (fresh_page d 0 800 false).

Definition head_page : page :=
  fresh_page [Element "html" "" [] [] 0 0;
              Element "head" "" [] [] 1 0;
              Element "script" "" [] [("src", "script.js")] 2 0] 0 800 true.

(** The part of an element that decides where it sits in the tree. *)
Definition shape (e : element) : string * nat := (localName e, depth e).

(** ** Closing the mobile menu *)

(** The click listener of every navigation link (lines 410-417 and
    1203-1210). *)
Definition navLink_close (p : page) : page :=
  let p :=
    match navMenu p with
    | Some m => update_node m (with_classes (remove ["active"])) p
    | None => p
    end in
  let icon :=
    match navToggle p with
    | Some t => querySelectorIn (dom p) t (is_tag "i")
    | None => None
    end in
  match icon with
  | Some ic =>
      update_node ic (with_classes (add ["fa-bars"]))
        (update_node ic (with_classes (remove ["fa-times"])) p)
  | None => p
  end.

(** The [keydown] listener of [enhanceAccessibility] (lines 752-760 and
    1418-1426).  The final [navToggle.focus()] moves the keyboard focus,
    which is not part of the page state modelled here. *)
Definition escape_keydown (key : string) : js unit := fun p =>
  if String.eqb key "Escape" then
    match navMenu p with
    | None => (Thrown (null_deref "navMenu.classList"), p)
    | Some m =>
        if matches_at (has_class "active") (dom p) m then
          let p := update_node m (with_classes (remove ["active"])) p in
          match navToggle p with
          | None => (Thrown (null_deref "navToggle.querySelector"), p)
          | Some t =>
              match querySelectorIn (dom p) t (is_tag "i") with
              | None => (Thrown (null_deref "icon.classList"), p)
              | Some icon =>
                  (Normal tt,
                   update_node icon (with_classes (add ["fa-bars"]))
                     (update_node icon (with_classes (remove ["fa-times"])) p))
              end
          end
        else (Normal tt, p)
    end
  else (Normal tt, p).

(** The second click listener of the toggle (lines 766-769 and 1432-1435):
    [setAttribute] writes the boolean as ["true"] or ["false"]. *)
Definition ariaExpanded_click : js unit := fun p =>
  match navMenu p with
  | None => (Thrown (null_deref "navMenu.classList"), p)
  | Some m =>
      let isExpanded := matches_at (has_class "active") (dom p) m in
      match navToggle p with
      | None => (Thrown (null_deref "navToggle.setAttribute"), p)
      | Some t =>
          (Normal tt,
           update_node t (with_attribute "aria-expanded"
                            (if isExpanded then "true" else "false")) p)
      end
  end.

(** [KeyboardNavigation.handleKeyboard] (lines 159-182 and 926-949).  The
    result says whether [preventDefault] was called and which smooth scroll
    was requested. *)
Record KeyboardEvent := {
  key : string;
  ctrlKey : bool;
  metaKey : bool
}.

Inductive scroll_request := ScrollToTop | ScrollToBottom.

Definition plain (name : string) (e : KeyboardEvent) : bool :=
  String.eqb (key e) name && negb (ctrlKey e) && negb (metaKey e).

(** The selector [.nav__menu.active]. *)
Definition open_menu (x : element) : bool := has_class "nav__menu" x && has_class "active" x.

Definition handleKeyboard (e : KeyboardEvent) (p : page)
    : page * (bool * option scroll_request) :=
  let prevented := plain "/" e in
  let p :=
    if String.eqb (key e) "Escape" then
      match querySelector open_menu (dom p) with
      | Some menu => update_node menu (with_classes (remove ["active"])) p
      | None => p
      end
    else p in
  let '(prevented, request) :=
    if plain "Home" e then (true, Some ScrollToTop) else (prevented, None) in
  let '(prevented, request) :=
    if plain "End" e then (true, Some ScrollToBottom) else (prevented, request) in
  (p, (prevented, request)).

(** ** The throttled back-to-top listener over time *)

Inductive throttle_event :=
  | PageScroll (y : Q)
  | TimerElapsed (k : nat).

Definition backToTop_step (p : page) (ev : throttle_event) : page :=
  match ev with
  | PageScroll y => backToTop_scroll (set_scrollY y p)
  | TimerElapsed k => fire_timer k p
  end.

Definition backToTop_run (evs : list throttle_event) (p : page) : page :=
  foldl backToTop_step p evs.

Definition is_reset (t : task) : bool :=
  match t with
  | ThrottleReset _ => true
  | _ => false
  end.

Definition resets_pending (p : page) : nat :=
  length (List.filter is_reset (timers p)).

(** ** Observer callbacks *)

Definition remove_attribute (k : string) (e : element) : element :=
  Element (localName e) (ident e) (classList e)
          (List.filter (fun kv => negb (String.eqb (fst kv) k)) (attributes e))
          (depth e) (rectTop e).

Definition unobserve (o : observer) (i : nat) (p : page) : page :=
  set_observed
    (List.filter (fun oi => negb (match fst oi, o with
                                  | InViewObserver, InViewObserver
                                  | SectionViewObserver, SectionViewObserver
                                  | LazyImageObserver, LazyImageObserver => Nat.eqb (snd oi) i
                                  | _, _ => false
                                  end)) (observed p)) p.

(** [img.dataset.src] read into a string: a missing attribute reads as
    [undefined]. *)
Definition dataset_src (e : element) : string :=
  match attribute "data-src" e with
  | Some v => v
  | None => "undefined"
  end.

(** The callback of [lazyLoadImages] for one entry (lines 715-722 and
    1390-1397). *)
Definition lazyImage_entry (img : nat) (isIntersecting : bool) (p : page) : page :=
  if isIntersecting then
    match dom p !! img with
    | Some e =>
        unobserve LazyImageObserver img
          (update_node img (with_classes (remove ["loading"]))
             (update_node img (with_attribute "src" (dataset_src e)) p))
    | None => p
    end
  else p.

(** The callback of the [PerformanceObserver] class for one entry (lines
    130-139 and 897-906). *)
Definition inView_entry (target : nat) (isIntersecting : bool) (p : page) : page :=
  if isIntersecting then
    let p := update_node target (with_classes (add ["in-view"])) p in
    match dom p !! target with
    | Some e =>
        match attribute "data-src" e with
        | Some v =>
            if is_tag "img" e && negb (String.eqb v "")
            then update_node target (remove_attribute "data-src")
                   (update_node target (with_attribute "src" v) p)
            else p
        | None => p
        end
    | None => p
    end
  else p.

(** ** The typing effect (lines 4-40)

    A JavaScript string is a sequence of UTF-16 code units; [substring]
    and [===] work on the code units.  [display] is the element's
    [textContent].  [type] returns the delay
    and the kind of the one timer it sets: after the pause the callback
    raises [isDeleting] before it calls [type] again. *)

Definition js_string := list N.

(** The code units of a text of ASCII characters. *)
Definition code_units (s : string) : js_string :=
  Ascii.N_of_ascii <$> String.list_ascii_of_string s.

Module TypeWriter.

Record t := Make {
  text : js_string;
  speed : Z;
  index : Z;
  isDeleting : bool;
  pauseDuration : Z;
  display : js_string
}.

Inductive timer := PauseThenType | Type_.

(** [s.substring(0, n)]: a negative end counts as 0, an end past the
    string takes all of it; positions count code units. *)
Definition substring0 (n : Z) (s : js_string) : js_string :=
  take (Z.to_nat n) s.

Definition type (w : t) : t * (Z * timer) :=
  let current :=
    if isDeleting w
    then substring0 (index w - 1) (text w)
    else substring0 (index w + 1) (text w) in
  if negb (isDeleting w) && bool_decide (current = text w) then
    (Make (text w) (speed w) (index w) (isDeleting w) (pauseDuration w) current,
     (pauseDuration w, PauseThenType))
  else if isDeleting w && bool_decide (current = []) then
    (Make (text w) (speed w) 0 false (pauseDuration w) current, (500%Z, Type_))
  else
    (Make (text w) (speed w)
          (if isDeleting w then index w - 1 else index w + 1)%Z
          (isDeleting w) (pauseDuration w) current,
     (speed w, Type_)).

(** [new TypeWriter(element, text, speed)]: the constructor calls [type]
    once. *)
Definition create (text : js_string) (speed : Z) : t * (Z * timer) :=
  type (Make text speed 0 false 2000 []).

(** The pending timer fires. *)
Definition fire (st : t * (Z * timer)) : t * (Z * timer) :=
  match snd (snd st) with
  | PauseThenType =>
      let w := fst st in
      type (Make (text w) (speed w) (index w) true (pauseDuration w) (display w))
  | Type_ => type (fst st)
  end.

End TypeWriter.

(** ** [debounce] (lines 837-847 and 1162-1172)

    [timeout] is the closure variable; [pending] holds the timers the
    debounced function has set and the host has neither fired nor
    cancelled, with the arguments their callbacks will pass on. *)

Module Debounce.

Record t (A : Type) := Make {
  timeout : option nat;
  pending : list (nat * A);
  nextTimer : nat
}.
Arguments Make {A}.
Arguments timeout {A}.
Arguments pending {A}.
Arguments nextTimer {A}.

Definition clearTimeout {A : Type} (id : option nat) (timers : list (nat * A)) : list (nat * A) :=
  match id with
  | Some i => List.filter (fun ia => negb (Nat.eqb (fst ia) i)) timers
  | None => timers
  end.

Definition fresh {A : Type} (firstTimer : nat) : t A := Make None [] firstTimer.

(** A call of the debounced function. *)
Definition call {A : Type} (args : A) (d : t A) : t A :=
  let timers := clearTimeout (timeout d) (pending d) in
  Make (Some (nextTimer d)) (timers ++ [(nextTimer d, args)]) (S (nextTimer d)).

(** The host fires timer [id]: [later] clears [timeout] and calls [func].
    The second component lists the calls of [func]. *)
Definition fire {A : Type} (id : nat) (d : t A) : t A * list A :=
  match List.find (fun ia => Nat.eqb (fst ia) id) (pending d) with
  | Some (_, args) =>
      let timers := List.filter (fun ia => negb (Nat.eqb (fst ia) id)) (pending d) in
      (Make (timeout d) (clearTimeout (timeout d) timers) (nextTimer d), [args])
  | None => (d, [])
  end.

End Debounce.

(** ** Values the host supplies to the trackers *)

Record environment := {
  href : string;           (* window.location.href *)
  now : string;            (* new Date().toISOString() *)
  agent : string;          (* navigator.userAgent *)
  random36 : string        (* Math.random().toString(36).substr(2, 9) *)
}.

(** ** [ErrorHandler] (lines 297-345 and 1064-1112)

    [logged] is what [console.error] has printed, [localStorage] the
    browser's store as a list of keys and values. *)

Module ErrorHandler.

Record errorInfo := {
  message : option string;
  stack : option string;
  context : string;
  url : string;
  timestamp : string;
  userAgent : string;
  userId : string
}.

Record t := Make {
  errors : list errorInfo;
  logged : list errorInfo;
  localStorage : list (string * string)
}.

Definition getItem (k : string) (store : list (string * string)) : option string :=
  snd <$> List.find (fun kv => String.eqb (fst kv) k) store.

Definition setItem (k v : string) (store : list (string * string)) : list (string * string) :=
  (k, v) :: List.filter (fun kv => negb (String.eqb (fst kv) k)) store.

Definition getUserId (env : environment) (h : t) : string * t :=
  match getItem "userId" (localStorage h) with
  | Some (String c s) => (String c s, h)
  | _ =>
      let userId := ("user_" ++ random36 env)%string in
      (userId, Make (errors h) (logged h) (setItem "userId" userId (localStorage h)))
  end.

(** [error] is [None] for [null] or [undefined] (an [error] event of a
    cross-origin script carries no error object); otherwise its [message]
    and [stack], either of which may be missing. *)
Definition handleError (env : environment) (error : option (option string * option string))
    (context : string) (h : t) : outcome unit * t :=
  match error with
  | None => (Thrown (null_deref "error.message"), h)
  | Some (message, stack) =>
      let '(userId, h) := getUserId env h in
      let errorInfo :=
        Build_errorInfo message stack context (href env) (now env) (agent env) userId in
      (Normal tt, Make (errors h ++ [errorInfo]) (logged h ++ [errorInfo]) (localStorage h))
  end.

(** A run of handler calls; a call that raises changes nothing. *)
Definition handle_all
    (calls : list (environment * option (option string * option string) * string)) (h : t) : t :=
  foldl (fun acc call => snd (handleError (fst (fst call)) (snd (fst call)) (snd call) acc))
        h calls.

End ErrorHandler.

(** ** [AnalyticsTracker]: section views (lines 281-292 and 1048-1059) *)

Module AnalyticsTracker.

Record event := {
  category : string;
  action : string;
  label : string;
  timestamp : string;
  url : string;
  userAgent : string
}.

(** [element.className]: the element record keeps the class attribute as
    its list of tokens, so the attribute text is the tokens separated by
    single spaces. *)
Definition className (e : element) : string := String.concat " " (classList e).

(** [trackEvent] (lines 234-249): the event is pushed and logged. *)
Definition trackEvent (env : environment) (category action label : string)
    (st : page * list event) : page * list event :=
  let event := Build_event category action label (now env) (href env) (agent env) in
  (console_log "Analytics Event:" (fst st), snd st ++ [event]).

Definition tracked (e : element) : bool :=
  match attribute "data-tracked" e with
  | Some (String _ _) => true
  | _ => false
  end.

(** The observer callback for one entry. *)
Definition sectionView_entry (env : environment) (target : nat) (isIntersecting : bool)
    (st : page * list event) : page * list event :=
  match dom (fst st) !! target with
  | Some e =>
      if isIntersecting && negb (tracked e) then
        let p := update_node target (with_attribute "data-tracked" "true") (fst st) in
        trackEvent env "Section" "View"
          (match ident e with
           | String _ _ => ident e
           | EmptyString => className e
           end) (p, snd st)
      else st
  | None => st
  end.

End AnalyticsTracker.

(** ** More sample pages *)

Definition plain_menu_page : page :=
  Page [Element "button" "nav-toggle" ["nav__toggle"] [] 2 0;
        Element "ul" "nav-menu" ["nav__menu"; "active"] [] 2 0]
       0 800 false (Some 0%nat) (Some 1%nat) [] None None false 0 false [] [] [] [] [].

Definition escape_event : KeyboardEvent := Build_KeyboardEvent "Escape" false false.

(** ** Relations used to state what start-up keeps *)

(** [e'] is [e] with, possibly, more classes. *)
Definition grows (e e' : element) : Prop :=
  localName e' = localName e
  ∧ ident e' = ident e
  ∧ attributes e' = attributes e
  ∧ depth e' = depth e
  ∧ rectTop e' = rectTop e
  ∧ ∀ c, has_class c e = true → has_class c e' = true.


(** [q] has the animation-frame queue of [p], and its throttle flag is
    down if that of [p] was. *)
Definition keeps_throttle (p q : page) : Prop :=
  rafQueue q = rafQueue p ∧ (ticking p = false → ticking q = false).

Definition keeps (m : js unit) : Prop := ∀ p, keeps_throttle p (snd (m p)).

(** The statements of [V2.script] after the feature classes. *)
Definition after_features : js unit :=
  run bind_globals
  >> run (fun p => if loading p
                   then addEventListener Document "DOMContentLoaded" InitMobileMenu p
                   else V2.initMobileMenu p)
  >> run (fun p => if loading p
                   then addEventListener Document "DOMContentLoaded" InitMobileMenuClose p
                   else V2.initMobileMenuClose p)
  >> run updateHeader
  >> run (addEventListener Window "scroll" OnScroll)
  >> run (addEventListener Window "scroll" BackToTopScroll)
  >> run (fun p => match backToTopButton p with
                   | Some b => addEventListener (Node b) "click" BackToTopClick p
                   | None => p
                   end)
  >> V2.init.

Definition lazy_image (e : element) : bool := is_tag "img" e && has_attribute "data-src" e.

Definition photo_page : page :=
  fresh_page [Element "img" "" ["photo"] [("data-src", "me.jpg"); ("alt", "me")] 2 0] 0 800 false.

(** The effect after [n] timers have fired, and its state after the call
    that shows the first [k] characters. *)
Definition typing_run (text : js_string) (speed : Z) (n : nat)
    : TypeWriter.t * (Z * TypeWriter.timer) :=
  Nat.iter n TypeWriter.fire (TypeWriter.create text speed).

Definition typing (text : js_string) (speed : Z) (k : nat) : TypeWriter.t :=
  TypeWriter.Make text speed (Z.of_nat k) false 2000 (take k text).

(** What the callback of the in-view observer makes of one element. *)
Definition inView_element (e : element) : element :=
  let e1 := with_classes (add ["in-view"]) e in
  match attribute "data-src" e1 with
  | Some v =>
      if is_tag "img" e1 && negb (String.eqb v "")
      then remove_attribute "data-src" (with_attribute "src" v e1)
      else e1
  | None => e1
  end.

(** The debounced function after a burst of calls. *)
Definition debounced_calls {A : Type} (firstTimer : nat) (calls : list A) : Debounce.t A :=
  foldl (fun d args => Debounce.call args d) (Debounce.fresh firstTimer) calls.
(** * Properties *)

(** ** Token lists *)

Section Tokens.
Implicit Types (c x : string) (cl ts : list string).

Lemma contains_app cl ts c : contains c (cl ++ ts) = contains c cl || contains c ts.
  Proof. apply existsb_app. Qed.

Lemma contains_singleton c x : contains c [x] = String.eqb c x.
  Proof. unfold contains. simpl. apply orb_false_r. Qed.

Lemma contains_add_token cl c x :
    contains c (add_token cl x) = contains c cl || String.eqb c x.
  Proof.
    unfold add_token. destruct (contains x cl) eqn:Hx.
    - destruct (String.eqb_spec c x) as [->|_].
      + now rewrite Hx.
      + now rewrite orb_false_r.
    - now rewrite contains_app, contains_singleton.
  Qed.

Lemma contains_remove_token cl c x :
    contains c (remove_token cl x) = contains c cl && negb (String.eqb c x).
  Proof.
    induction cl as [|y r IH]; [reflexivity|]. simpl.
    destruct (String.eqb_spec y x) as [->|Hyx].
    - rewrite IH. destruct (String.eqb_spec c x) as [->|Hcx]; simpl.
      + now rewrite !andb_false_r.
      + now rewrite andb_true_r.
    - simpl. rewrite IH.
      destruct (String.eqb_spec c y) as [->|Hcy]; simpl; [|reflexivity].
      destruct (String.eqb_spec y x); [contradiction|reflexivity].
  Qed.

Lemma contains_add ts cl c : contains c (add ts cl) = contains c cl || contains c ts.
  Proof.
    unfold add. revert cl. induction ts as [|t r IH]; intros cl; simpl.
    - now rewrite orb_false_r.
    - rewrite IH, contains_add_token. now rewrite orb_assoc.
  Qed.

Lemma contains_remove ts cl c :
    contains c (remove ts cl) = contains c cl && negb (contains c ts).
  Proof.
    unfold remove. revert cl. induction ts as [|t r IH]; intros cl; simpl.
    - now rewrite andb_true_r.
    - rewrite IH, contains_remove_token, negb_orb. now rewrite andb_assoc.
  Qed.

Lemma contains_toggle cl c x :
    contains c (toggle x cl)
    = if String.eqb c x then negb (contains c cl) else contains c cl.
  Proof.
    unfold toggle. destruct (contains x cl) eqn:Hx.
    - rewrite contains_remove_token.
      destruct (String.eqb_spec c x) as [->|_]; simpl.
      + now rewrite Hx.
      + now rewrite andb_true_r.
    - rewrite contains_app, contains_singleton.
      destruct (String.eqb_spec c x) as [->|_]; simpl.
      + now rewrite Hx.
      + now rewrite orb_false_r.
  Qed.

End Tokens.

(** ** Node lists *)

Lemma matching_from_spec (sel : element → bool) (d : list element) (k i : nat) :
  i ∈ matching_from sel k d ↔ ∃ e, (k ≤ i)%nat ∧ d !! (i - k)%nat = Some e ∧ sel e = true.
Proof.
  revert k. induction d as [|x r IH]; intros k; simpl.
  - split; [intros H; inversion H | intros (e & _ & H & _); discriminate].
  - assert (Hr : i ∈ matching_from sel (S k) r ↔
                 ∃ e, (k ≤ i)%nat ∧ (x :: r) !! (i - k)%nat = Some e ∧ sel e = true ∧ i ≠ k).
    { rewrite IH. split.
      - intros (e & Hle & Hl & Hs). exists e. repeat split; [lia| |done|lia].
        replace (i - k)%nat with (S (i - S k)) by lia. exact Hl.
      - intros (e & Hle & Hl & Hs & Hne). exists e. repeat split; [lia| |done].
        replace (i - k)%nat with (S (i - S k)) in Hl by lia. exact Hl. }
    destruct (sel x) eqn:Hx.
    + rewrite elem_of_cons, Hr. split.
      * intros [->|(e & ? & ? & ? & _)]; [|by eauto].
        exists x. rewrite Nat.sub_diag. done.
      * intros (e & Hle & Hl & Hs). destruct (decide (i = k)) as [->|Hne]; [by left|].
        right. by eauto 6.
    + rewrite Hr. split.
      * intros (e & ? & ? & ? & _). by eauto.
      * intros (e & Hle & Hl & Hs). exists e. repeat split; try done.
        intros ->. rewrite Nat.sub_diag in Hl. simpl in Hl. congruence.
Qed.

Lemma matching_from_NoDup (sel : element → bool) (d : list element) (k : nat) :
  NoDup (matching_from sel k d).
Proof.
  revert k. induction d as [|x r IH]; intros k; simpl; [constructor|].
  destruct (sel x); [|apply IH].
  constructor; [|apply IH].
  rewrite matching_from_spec. intros (e & Hle & _). lia.
Qed.

Lemma querySelectorAll_spec (sel : element → bool) (d : list element) (i : nat) :
  i ∈ querySelectorAll sel d ↔ ∃ e, d !! i = Some e ∧ sel e = true.
Proof.
  unfold querySelectorAll. rewrite matching_from_spec, Nat.sub_0_r.
  split; [intros (e & _ & H); eauto | intros (e & H); exists e; split; [lia|done]].
Qed.

Lemma querySelectorAll_NoDup (sel : element → bool) (d : list element) :
  NoDup (querySelectorAll sel d).
Proof. apply matching_from_NoDup. Qed.

Lemma alter_absent {A : Type} (f : A → A) (i : nat) (l : list A) :
  l !! i = None → alter f i l = l.
Proof.
  revert i. induction l as [|x r IH]; intros [|i] H; simpl in *; try done.
  f_equal. by apply IH.
Qed.

(** A [forEach] whose body rewrites the visited node in place. *)
Lemma forEach_alter_lookup (f : element → element) (nodes : list nat)
    (d : list element) (j : nat) :
  NoDup nodes →
  forEach nodes (fun i acc => alter f i acc) d !! j
  = if bool_decide (j ∈ nodes) then f <$> d !! j else d !! j.
Proof.
  unfold forEach. intros Hnd. revert d.
  induction Hnd as [|i r Hi Hnd IH]; intros d; simpl; [done|].
  rewrite IH. destruct (decide (j = i)) as [->|Hne].
  - rewrite (bool_decide_eq_false_2 _ Hi).
    rewrite bool_decide_eq_true_2 by (by left).
    apply list_lookup_alter_eq.
  - rewrite list_lookup_alter_ne by done.
    destruct (decide (j ∈ r)) as [Hin|Hnin].
    + rewrite !bool_decide_eq_true_2; [done|by right|done].
    + rewrite !bool_decide_eq_false_2; [done| |done].
      rewrite elem_of_cons. tauto.
Qed.

(** ** The reveal evaluator, element by element *)

Example reveal_runs :
  let d := [Element "div" "" ["reveal"] [] 0 100; Element "div" "" ["reveal"] [] 0 700] in
  map classList (dom (V1.revealOnScroll (fresh_page d 0 800 false)))
  = [["reveal"; "active"]; ["reveal"]].
Proof. reflexivity. Qed.

Lemma forEach_select_lookup (sel : element → bool) (f : element → element)
    (d0 d : list element) (j : nat) :
  (∀ i, sel <$> d0 !! i = sel <$> d !! i) →
  forEach (querySelectorAll sel d0) (fun i acc => alter f i acc) d !! j
  = (fun e => if sel e then f e else e) <$> d !! j.
Proof.
  intros Hsel. rewrite forEach_alter_lookup by apply querySelectorAll_NoDup.
  specialize (Hsel j).
  destruct (d !! j) as [e|] eqn:He; simpl in *.
  - destruct (d0 !! j) as [e0|] eqn:He0; simpl in Hsel; [|done].
    destruct (sel e) eqn:Hs.
    + rewrite bool_decide_eq_true_2; [done|].
      apply querySelectorAll_spec. exists e0. split; congruence.
    + rewrite bool_decide_eq_false_2; [done|].
      rewrite querySelectorAll_spec. intros (e1 & H1 & H2). congruence.
  - by destruct (bool_decide _).
Qed.

Lemma reveal_pass_lookup (h : Q) (d : list element) (j : nat) :
  reveal_pass h d !! j = revealed h <$> d !! j.
Proof. unfold reveal_pass. by apply forEach_select_lookup. Qed.

Lemma section_pass_dom (h : Q) (nodes : list nat) (d : list element) (ts : list task) :
  (forEach nodes (V1.section_step h) (d, ts)).1
  = forEach nodes (fun i acc => alter (V1.highlight_section h) i acc) d.
Proof.
  unfold forEach. revert d ts. induction nodes as [|i r IH]; intros d ts; simpl; [done|].
  unfold V1.section_step at 2. simpl.
  destruct (d !! i) as [s|] eqn:Hs.
  - apply IH.
  - rewrite (alter_absent _ _ _ Hs). apply IH.
Qed.

Lemma revealed_tag (h : Q) (e : element) : localName (revealed h e) = localName e.
Proof.
  unfold revealed, reveal_element. destruct (sel_reveal e); [|done]. by destruct (Qltb _ _).
Qed.

Lemma revealed_top (h : Q) (e : element) : rectTop (revealed h e) = rectTop e.
Proof.
  unfold revealed, reveal_element. destruct (sel_reveal e); [|done]. by destruct (Qltb _ _).
Qed.

Lemma second_lookup (p : page) (j : nat) :
  dom (V2.revealOnScroll p) !! j = revealed (innerHeight p) <$> dom p !! j.
Proof. apply reveal_pass_lookup. Qed.

Lemma first_lookup (p : page) (j : nat) :
  dom (V1.revealOnScroll p) !! j = evaluated_first (innerHeight p) <$> dom p !! j.
Proof.
  unfold V1.revealOnScroll. cbn [dom set_timers set_dom].
  rewrite section_pass_dom, forEach_select_lookup.
  - rewrite reveal_pass_lookup. destruct (dom p !! j) as [e|]; [|done]. simpl.
    unfold evaluated_first, is_tag. by rewrite revealed_tag.
  - intros i. rewrite reveal_pass_lookup. destruct (dom p !! i) as [e|]; [|done]. simpl.
    unfold is_tag. by rewrite revealed_tag.
Qed.

Lemma is_tag_false (t : string) (e : element) : localName e ≠ t → is_tag t e = false.
Proof. intros H. unfold is_tag. by destruct (String.eqb_spec (localName e) t). Qed.

Lemma is_tag_true (t : string) (e : element) : localName e = t → is_tag t e = true.
Proof. intros H. unfold is_tag. by destruct (String.eqb_spec (localName e) t). Qed.

(** The marker after the reveal loop: kept if it was there, added below
    the threshold. *)
Lemma revealed_active (h : Q) (e : element) :
  sel_reveal e = true →
  has_class "active" (revealed h e) = has_class "active" e || Qltb (rectTop e) (h - 100).
Proof.
  intros Hs. unfold revealed, reveal_element. rewrite Hs.
  destruct (Qltb (rectTop e) (h - 100)).
  - unfold has_class. cbn [classList with_classes]. rewrite contains_add. simpl. by rewrite !orb_true_r.
  - by rewrite orb_false_r.
Qed.

Lemma revealed_keeps_active (h : Q) (e : element) :
  has_class "active" e = true → has_class "active" (revealed h e) = true.
Proof.
  intros Ha. unfold revealed, reveal_element.
  destruct (sel_reveal e); [|done]. destruct (Qltb _ _); [|done].
  unfold has_class in *. cbn [classList with_classes]. rewrite contains_add. by rewrite Ha.
Qed.

Lemma in_band_spec (h t : Q) :
  V1.in_band h t = true ↔ (t < h - 50 ∧ - h / 2 < t)%Q.
Proof. unfold V1.in_band. by rewrite andb_true_iff, !Qltb_lt. Qed.

Lemma highlight_section_marks (h : Q) (s : element) :
  has_class "section-highlight" (V1.highlight_section h s) = V1.in_band h (rectTop s)
  ∧ has_class "active" (V1.highlight_section h s) = V1.in_band h (rectTop s).
Proof.
  unfold V1.highlight_section. destruct (V1.in_band h (rectTop s)).
  - destruct (has_class "education-career" _);
      unfold has_class; cbn [classList with_classes]; rewrite ?contains_add; simpl;
      rewrite ?orb_true_r; done.
  - unfold has_class; cbn [classList with_classes]. rewrite !contains_remove. simpl.
    by rewrite !andb_false_r.
Qed.

(** ** Section highlight *)

(** C7. After every run of the first version's evaluator, a [section]
    element carries the highlight marker (['section-highlight'], and with
    it ['active']) exactly when its top offset lies strictly inside the band
    [top < windowHeight - 50] and [top > -windowHeight/2], whatever it
    carried before the run: the run adds the marker inside the band and
    removes it outside, in both directions. *)
Theorem section_highlight_bidirectional (p : page) (i : nat) (s : element) :
  dom p !! i = Some s →
  localName s = "section" →
  ∃ s', dom (V1.revealOnScroll p) !! i = Some s'
    ∧ (has_class "section-highlight" s' = true
       ↔ (rectTop s < innerHeight p - 50 ∧ - innerHeight p / 2 < rectTop s)%Q)
    ∧ (has_class "active" s' = true
       ↔ (rectTop s < innerHeight p - 50 ∧ - innerHeight p / 2 < rectTop s)%Q).
Proof.
  intros Hs Htag. rewrite first_lookup, Hs. simpl.
  eexists; split; [reflexivity|].
  unfold evaluated_first. rewrite (is_tag_true _ _ Htag).
  destruct (highlight_section_marks (innerHeight p) (revealed (innerHeight p) s)) as [H1 H2].
  rewrite H1, H2, revealed_top. split; apply in_band_spec.
Qed.

Lemma section_highlight_bidirectional_witness :
  ∃ s', dom (V1.revealOnScroll highlight_page) !! 0%nat = Some s'
    ∧ (has_class "section-highlight" s' = true ↔ (300 < 800 - 50 ∧ - 800 / 2 < 300)%Q)
    ∧ (has_class "active" s' = true ↔ (300 < 800 - 50 ∧ - 800 / 2 < 300)%Q).
Proof.
  apply (section_highlight_bidirectional highlight_page 0
           (Element "section" "about" ["section"] [] 1 300)); reflexivity.
Defined.

(** In and out of the band and back in, on a concrete page. *)
Example section_in_out_in :
  let evs := [Evaluate; Layout 800 [-500]; Evaluate; Layout 800 [200]; Evaluate]%Q in
  map (fun n => has_class "section-highlight" <$> dom (reveal_run First (take n evs) highlight_page) !! 0%nat)
      [1; 3; 5]%nat
  = [Some true; Some false; Some true].
Proof. reflexivity. Qed.

(** ** Reveal marker *)

(** C1, as amended.  For every reveal-tagged element that is not itself a
    [section] element, with top offset [t] and viewport height [h], the
    marker ['active'] is present after one run of the evaluator exactly when
    it was present before the run or [t < h - 100]; at [t = h - 100] the run
    does not add it. *)
Theorem reveal_marker_after_run (p : page) (i : nat) (e : element) :
  dom p !! i = Some e →
  sel_reveal e = true →
  localName e ≠ "section" →
  ∃ e', dom (V1.revealOnScroll p) !! i = Some e'
    ∧ (has_class "active" e' = true
       ↔ has_class "active" e = true ∨ (rectTop e < innerHeight p - 100)%Q)
    ∧ ((rectTop e == innerHeight p - 100)%Q → has_class "active" e' = has_class "active" e).
Proof.
  intros He Hsel Htag. rewrite first_lookup, He. simpl.
  eexists; split; [reflexivity|].
  unfold evaluated_first. rewrite (is_tag_false _ _ Htag), (revealed_active _ _ Hsel).
  split.
  - by rewrite orb_true_iff, Qltb_lt.
  - intros Heq. assert (Hge : Qltb (rectTop e) (innerHeight p - 100) = false).
    { apply Qltb_ge. rewrite Heq. apply Qle_refl. }
    rewrite Hge. apply orb_false_r.
Qed.

Lemma reveal_marker_after_run_witness :
  ∃ e', dom (V1.revealOnScroll card_page) !! 0%nat = Some e'
    ∧ (has_class "active" e' = true ↔ false = true ∨ (700 < 800 - 100)%Q)
    ∧ ((700 == 800 - 100)%Q → has_class "active" e' = false).
Proof.
  apply (reveal_marker_after_run card_page 0
           (Element "div" "" ["experience__card"; "reveal"] [] 3 700));
    [reflexivity | reflexivity | discriminate].
Defined.

(** C1 as stated fails: an element revealed by an earlier run keeps the
    marker when the page is scrolled back, so after the later run the marker
    is present although [t < h - 100] is false. *)
Lemma reveal_marker_survives_scroll_back :
  ¬ (∀ (p : page) (i : nat) (e e' : element),
       dom p !! i = Some e →
       sel_reveal e = true →
       dom (V1.revealOnScroll p) !! i = Some e' →
       (has_class "active" e' = true ↔ (rectTop e < innerHeight p - 100)%Q)).
Proof.
  intros H.
  pose (p := reveal_run First [Layout 800 [100]; Evaluate; Layout 800 [1000]]%Q card_page).
  specialize (H p 0%nat
                (Element "div" "" ["experience__card"; "reveal"; "active"] [] 3 1000)
                (Element "div" "" ["experience__card"; "reveal"; "active"] [] 3 1000)
                eq_refl eq_refl eq_refl).
  destruct H as [H _]. specialize (H eq_refl). vm_compute in H. discriminate.
Qed.

(** C9, as amended.  On every element that is not a [section] element the
    two versions of the evaluator leave the same element behind when the
    run returns, so they add the reveal marker in the same cases.  (The
    timers the first version starts for the groups and cards of a
    highlighted section fire later.) *)
Theorem versions_agree_outside_sections (p : page) (i : nat) (e : element) :
  dom p !! i = Some e →
  localName e ≠ "section" →
  dom (V1.revealOnScroll p) !! i = dom (V2.revealOnScroll p) !! i.
Proof.
  intros He Htag. rewrite first_lookup, second_lookup, He. simpl.
  unfold evaluated_first. by rewrite (is_tag_false _ _ Htag).
Qed.

Lemma versions_agree_outside_sections_witness :
  dom (V1.revealOnScroll card_page) !! 0%nat = dom (V2.revealOnScroll card_page) !! 0%nat.
Proof.
  apply (versions_agree_outside_sections card_page 0
           (Element "div" "" ["experience__card"; "reveal"] [] 3 700));
    [reflexivity | discriminate].
Defined.

(** C9 as stated fails on a reveal-tagged [section]: 80 pixels above the
    bottom of the viewport the first version adds ['active'] (the section
    is in the highlight band), the second does not. *)
Lemma versions_differ_on_section :
  ¬ (∀ (p : page) (i : nat) (e e1 e2 : element),
       dom p !! i = Some e →
       sel_reveal e = true →
       dom (V1.revealOnScroll p) !! i = Some e1 →
       dom (V2.revealOnScroll p) !! i = Some e2 →
       (has_class "active" e1 = true ↔ has_class "active" e2 = true)).
Proof.
  intros H.
  specialize (H tagged_section_page 0%nat
                (Element "section" "contact" ["reveal"] [] 1 720)
                (Element "section" "contact" ["reveal"; "section-highlight"; "active"] [] 1 720)
                (Element "section" "contact" ["reveal"] [] 1 720)
                eq_refl eq_refl eq_refl eq_refl).
  destruct H as [H _]. specialize (H eq_refl). discriminate.
Qed.

(** ** The reveal marker over a session *)

Lemma highlight_section_tag (h : Q) (s : element) :
  localName (V1.highlight_section h s) = localName s.
Proof.
  unfold V1.highlight_section. destruct (V1.in_band _ _); [|done].
  by destruct (has_class "education-career" _).
Qed.

Lemma relayout_lookup (h : Q) (tops : list Q) (p : page) (i : nat) (e : element) :
  dom p !! i = Some e →
  ∃ e', dom (relayout h tops p) !! i = Some e'
    ∧ localName e' = localName e ∧ classList e' = classList e.
Proof.
  intros He. unfold relayout. cbn [dom set_innerHeight set_dom].
  rewrite list_lookup_imap, He. simpl.
  destruct (tops !! i); eexists; (split; [reflexivity|done]).
Qed.

Lemma run_task_lookup (t : task) (p : page) (i : nat) (e : element) :
  dom p !! i = Some e →
  ∃ e', dom (run_task t p) !! i = Some e'
    ∧ localName e' = localName e
    ∧ (has_class "active" e = true → has_class "active" e' = true).
Proof.
  intros He. destruct t as [delay node tokens| |node]; simpl.
  - destruct (decide (node = i)) as [->|Hne].
    + rewrite list_lookup_alter_eq, He. simpl.
      eexists; split; [reflexivity|]. split; [done|].
      unfold has_class. cbn [classList with_classes]. rewrite contains_add.
      by intros ->.
    + rewrite list_lookup_alter_ne by done. eauto.
  - eauto.
  - eauto.
Qed.

Lemma fire_timer_lookup (k : nat) (p : page) (i : nat) (e : element) :
  dom p !! i = Some e →
  ∃ e', dom (fire_timer k p) !! i = Some e'
    ∧ localName e' = localName e
    ∧ (has_class "active" e = true → has_class "active" e' = true).
Proof.
  intros He. unfold fire_timer. destruct (timers p !! k) as [t|]; [|eauto].
  by apply run_task_lookup.
Qed.

Lemma reveal_step_keeps_marker (v : version) (ev : reveal_event) (p : page)
    (i : nat) (e : element) :
  dom p !! i = Some e →
  (v = First → localName e ≠ "section") →
  has_class "active" e = true →
  ∃ e', dom (reveal_step v p ev) !! i = Some e'
    ∧ localName e' = localName e
    ∧ has_class "active" e' = true.
Proof.
  intros He Htag Ha. destruct ev as [h tops| |k]; cbn [reveal_step].
  - destruct (relayout_lookup h tops p i e He) as (e' & H1 & H2 & H3).
    exists e'. repeat split; [done|done|]. unfold has_class in *. by rewrite H3.
  - destruct v; cbn [revealOnScroll_of].
    + rewrite first_lookup, He. simpl. eexists; split; [reflexivity|].
      unfold evaluated_first. rewrite (is_tag_false _ _ (Htag eq_refl)).
      split; [apply revealed_tag | by apply revealed_keeps_active].
    + rewrite second_lookup, He. simpl. eexists; split; [reflexivity|].
      split; [apply revealed_tag | by apply revealed_keeps_active].
  - destruct (fire_timer_lookup k p i e He) as (e' & H1 & H2 & H3). eauto.
Qed.

(** C8, as amended.  Once a reveal marker is present on an element, no
    later run of the evaluator removes it, whatever the scroll positions
    and timers in between: in the second version for every element, in the
    first version for every element that is not itself a [section] element
    (its section loop takes ['active'] off a section outside the band). *)
Theorem reveal_marker_one_shot (v : version) (evs : list reveal_event) (p : page)
    (i : nat) (e : element) :
  dom p !! i = Some e →
  (v = First → localName e ≠ "section") →
  has_class "active" e = true →
  ∃ e', dom (reveal_run v evs p) !! i = Some e' ∧ has_class "active" e' = true.
Proof.
  unfold reveal_run. revert p e.
  induction evs as [|ev r IH]; intros p e He Htag Ha; simpl.
  - eauto.
  - destruct (reveal_step_keeps_marker v ev p i e He Htag Ha) as (e' & H1 & H2 & H3).
    apply (IH _ e'); [done| |done]. rewrite H2. exact Htag.
Qed.

Lemma reveal_marker_one_shot_witness :
  ∃ e', dom (reveal_run First [Layout 800 [1500]; Evaluate; Layout 800 [-900]; Evaluate]%Q
               revealed_card_page) !! 0%nat = Some e'
    ∧ has_class "active" e' = true.
Proof.
  apply (reveal_marker_one_shot First _ revealed_card_page 0
           (Element "div" "" ["experience__card"; "reveal"; "active"] [] 3 100));
    [reflexivity | discriminate | reflexivity].
Defined.

(** C8 as stated fails in the first version on a reveal-tagged [section]:
    at top 100 the reveal loop adds the marker, and a run after the section
    has moved above the band removes it. *)
Lemma reveal_marker_removed_from_section :
  ¬ (∀ (v : version) (evs : list reveal_event) (p : page) (i : nat) (e : element),
       dom p !! i = Some e →
       sel_reveal e = true →
       has_class "active" e = true →
       ∃ e', dom (reveal_run v evs p) !! i = Some e' ∧ has_class "active" e' = true).
Proof.
  intros H.
  assert (Hfirst : reveal_run First [Layout 800 [100]; Evaluate]%Q tagged_section_page
                   = revealed_section_page) by reflexivity.
  destruct (H First [Layout 800 [-500]; Evaluate]%Q revealed_section_page 0%nat
              (Element "section" "contact" ["reveal"; "active"; "section-highlight"] [] 1 100)
              eq_refl eq_refl eq_refl) as (e' & He' & Ha).
  vm_compute in He'. injection He' as <-. discriminate.
Qed.

(** ** Header scroll effect *)

Lemma updateHeader_fields (p : page) :
  ticking (updateHeader p) = false
  ∧ lastScrollY (updateHeader p) = scrollY p
  ∧ scrollY (updateHeader p) = scrollY p
  ∧ rafQueue (updateHeader p) = rafQueue p
  ∧ header (updateHeader p) = header p
  ∧ length (dom (updateHeader p)) = length (dom p).
Proof.
  unfold updateHeader.
  destruct (header p) as [hd|] eqn:Hh; [destruct (Qltb 50 (scrollY p))|];
    cbn; rewrite ?length_alter, ?Hh; done.
Qed.

Lemma updateHeader_marker (p : page) (hd : nat) (e : element) :
  header p = Some hd →
  dom p !! hd = Some e →
  ∃ e', dom (updateHeader p) !! hd = Some e'
    ∧ has_class "scrolled" e' = Qltb 50 (scrollY p).
Proof.
  intros Hhd He. unfold updateHeader. rewrite Hhd.
  destruct (Qltb 50 (scrollY p)); cbn [dom set_ticking set_lastScrollY update_node set_dom];
    rewrite list_lookup_alter_eq, He; simpl; (eexists; split; [reflexivity|]);
    unfold has_class; cbn [classList with_classes].
  - rewrite contains_add. simpl. by rewrite orb_true_r.
  - rewrite contains_remove. simpl. by rewrite andb_false_r.
Qed.

(** C10. After every run of [updateHeader] the header element carries
    ['scrolled'] exactly when the scroll position is strictly greater than
    50, whatever it carried before; at exactly 50 the class is absent. *)
Theorem header_scrolled_iff (p : page) (hd : nat) (e : element) :
  header p = Some hd →
  dom p !! hd = Some e →
  ∃ e', dom (updateHeader p) !! hd = Some e'
    ∧ (has_class "scrolled" e' = true ↔ (50 < scrollY p)%Q)
    ∧ ((scrollY p == 50)%Q → has_class "scrolled" e' = false).
Proof.
  intros Hhd He. destruct (updateHeader_marker p hd e Hhd He) as (e' & H1 & H2).
  exists e'. split; [done|]. rewrite H2. split; [apply Qltb_lt|].
  intros Heq. apply Qltb_ge. rewrite Heq. apply Qle_refl.
Qed.

Lemma header_scrolled_iff_witness :
  ∃ e', dom (updateHeader (header_page 50 ["header"; "scrolled"])) !! 0%nat = Some e'
    ∧ (has_class "scrolled" e' = true ↔ (50 < 50)%Q)
    ∧ ((50 == 50)%Q → has_class "scrolled" e' = false).
Proof.
  apply (header_scrolled_iff (header_page 50 ["header"; "scrolled"]) 0
           (Element "header" "header" ["header"; "scrolled"] [] 1 0)); reflexivity.
Defined.

Example header_crossings :
  map (fun y => classList <$> dom (updateHeader (header_page y ["header"])) !! 0%nat)
      [0; 50; 51]%Q
  = [Some ["header"]; Some ["header"]; Some ["header"; "scrolled"]]
  ∧ (classList <$> dom (updateHeader (header_page 10 ["header"; "scrolled"])) !! 0%nat)
    = Some ["header"].
Proof. split; reflexivity. Qed.

(** ** The animation-frame throttle *)

Lemma settled_inv (p : page) : throttle_inv (settled p).
Proof. reflexivity. Qed.

Lemma onScroll_inv (p : page) : throttle_inv p → throttle_inv (onScroll p).
Proof.
  unfold throttle_inv, onScroll. intros H.
  destruct (ticking p) eqn:Ht; simpl.
  - by rewrite Ht.
  - by rewrite H.
Qed.

Lemma frame_result (p : page) :
  throttle_inv p →
  fst (animation_frame p) = if ticking p then updateHeader (set_rafQueue [] p) else set_rafQueue [] p.
Proof.
  unfold throttle_inv, animation_frame. intros ->. by destruct (ticking p).
Qed.

Lemma header_step_inv (p : page) (ev : scroll_event) :
  throttle_inv p → throttle_inv (header_step p ev).
Proof.
  intros H. destruct ev as [y|]; cbn [header_step].
  - apply onScroll_inv. exact H.
  - rewrite (frame_result p H). unfold throttle_inv in *.
    destruct (ticking p) eqn:Ht.
    + destruct (updateHeader_fields (set_rafQueue [] p)) as (-> & _ & _ & -> & _). done.
    + cbn. by rewrite Ht.
Qed.

Lemma header_run_inv (evs : list scroll_event) (p : page) :
  throttle_inv p → throttle_inv (header_run evs p).
Proof.
  unfold header_run. revert p. induction evs as [|ev r IH]; intros p H; simpl; [done|].
  apply IH. by apply header_step_inv.
Qed.

Lemma executions_bound (evs : list scroll_event) (p : page) :
  throttle_inv p → Forall (fun n => (n ≤ 1)%nat) (executions_per_tick evs p).
Proof.
  revert p. induction evs as [|[y|] r IH]; intros p H; simpl.
  - constructor.
  - apply IH. by apply (header_step_inv p (Scroll y)).
  - constructor.
    + rewrite H. destruct (ticking p); simpl; lia.
    + apply IH. by apply (header_step_inv p Frame).
Qed.

Lemma header_run_app (l1 l2 : list scroll_event) (p : page) :
  header_run (l1 ++ l2) p = header_run l2 (header_run l1 p).
Proof. apply foldl_app. Qed.

Lemma executions_app (l1 l2 : list scroll_event) (p : page) :
  executions_per_tick (l1 ++ l2) p
  = executions_per_tick l1 p ++ executions_per_tick l2 (header_run l1 p).
Proof.
  revert p. induction l1 as [|[y|] r IH]; intros p; simpl; [done|apply IH|].
  f_equal. apply IH.
Qed.

Lemma run_callbacks_frame (cs : list callback) (q : page) :
  header (foldl (fun acc c => run_callback c acc) q cs) = header q
  ∧ length (dom (foldl (fun acc c => run_callback c acc) q cs)) = length (dom q).
Proof.
  revert q. induction cs as [|[] r IH]; intros q; simpl; [done|].
  destruct (IH (updateHeader q)) as [-> ->].
  by destruct (updateHeader_fields q) as (_ & _ & _ & _ & -> & ->).
Qed.

Lemma header_step_frame (p : page) (ev : scroll_event) :
  header (header_step p ev) = header p
  ∧ length (dom (header_step p ev)) = length (dom p).
Proof.
  destruct ev as [y|]; cbn [header_step].
  - unfold onScroll. cbn [ticking set_scrollY]. by destruct (ticking p).
  - unfold animation_frame. cbn [fst]. apply (run_callbacks_frame _ (set_rafQueue [] p)).
Qed.

Lemma header_run_frame (evs : list scroll_event) (p : page) :
  header (header_run evs p) = header p
  ∧ length (dom (header_run evs p)) = length (dom p).
Proof.
  unfold header_run. revert p. induction evs as [|ev r IH]; intros p; simpl; [done|].
  destruct (IH (header_step p ev)) as [-> ->]. apply header_step_frame.
Qed.

(** After at least one scroll event the flag is up, one frame is requested
    and the window is at the last position. *)
Lemma scrolls_pending (ys : list Q) (y : Q) (p : page) :
  throttle_inv p →
  let q := header_run (map Scroll (ys ++ [y])) p in
  ticking q = true ∧ rafQueue q = [UpdateHeader] ∧ scrollY q = y.
Proof.
  intros H. cbn zeta. rewrite map_app, header_run_app. simpl.
  set (q := header_run (map Scroll ys) p).
  assert (Hq : throttle_inv q) by (by apply header_run_inv).
  unfold header_run. simpl. unfold onScroll. cbn [ticking set_scrollY].
  unfold throttle_inv in Hq.
  destruct (ticking q) eqn:Ht; cbn.
  - by rewrite Ht.
  - by rewrite Hq.
Qed.

(** C2. Starting from the state the script's top level leaves behind, in
    every run of scroll events and frame ticks each frame tick executes
    [updateHeader], the callback wrapped by [onScroll], at most once,
    however many scroll events came before the tick; after [N >= 1] scroll
    events within one frame interval the tick executes it exactly once. *)
Theorem throttle_once_per_frame (p : page) (evs : list scroll_event) :
  Forall (fun n => (n ≤ 1)%nat) (executions_per_tick evs (settled p))
  ∧ ∀ (ys : list Q) (y : Q),
      executions_per_tick (map Scroll (ys ++ [y]) ++ [Frame]) (header_run evs (settled p))
      = [1%nat].
Proof.
  split.
  - apply executions_bound, settled_inv.
  - intros ys y. rewrite executions_app.
    assert (Hinv : throttle_inv (header_run evs (settled p)))
      by apply header_run_inv, settled_inv.
    assert (Hnil : ∀ q, executions_per_tick (map Scroll (ys ++ [y])) q = []).
    { induction (ys ++ [y]) as [|z r IH]; intros q; simpl; [done|apply IH]. }
    rewrite Hnil. simpl.
    destruct (scrolls_pending ys y _ Hinv) as (_ & -> & _). done.
Qed.

Example throttle_thousand_scrolls :
  executions_per_tick (map Scroll (repeat 120%Q 1000) ++ [Frame])
    (settled (header_page 0 ["header"]))
  = [1%nat].
Proof. vm_compute. reflexivity. Qed.

(** C3. [onScroll] sets the flag when it requests a frame, [updateHeader]
    clears it when it runs, and after any scroll events followed by a frame
    tick the header has been updated for the position of the last scroll
    event: [lastScrollY] is that position and ['scrolled'] is set for it. *)
Theorem throttle_evaluates_last_position (p : page) (evs : list scroll_event)
    (ys : list Q) (y : Q) :
  let before := header_run evs (settled p) in
  let requested := header_run (map Scroll (ys ++ [y])) before in
  let after := header_run [Frame] requested in
  (∀ q, ticking q = false →
        ticking (onScroll q) = true ∧ rafQueue (onScroll q) = rafQueue q ++ [UpdateHeader])
  ∧ (∀ q, ticking (updateHeader q) = false)
  ∧ ticking requested = true
  ∧ ticking after = false
  ∧ rafQueue after = []
  ∧ lastScrollY after = y
  ∧ (∀ hd e, header p = Some hd → dom p !! hd = Some e →
       ∃ e', dom after !! hd = Some e' ∧ (has_class "scrolled" e' = true ↔ (50 < y)%Q)).
Proof.
  intros before requested after.
  assert (Hinv : throttle_inv before) by apply header_run_inv, settled_inv.
  destruct (scrolls_pending ys y before Hinv) as (Ht & Hq & Hy).
  fold requested in Ht, Hq, Hy.
  assert (Hreq : throttle_inv requested) by (by apply header_run_inv).
  assert (Hafter : after = updateHeader (set_rafQueue [] requested)).
  { unfold after, header_run. cbn [foldl header_step].
    rewrite (frame_result _ Hreq). by rewrite Ht. }
  destruct (updateHeader_fields (set_rafQueue [] requested)) as (F1 & F2 & _ & F4 & _ & _).
  split; [|split; [|split; [|split; [|split; [|split]]]]].
  - intros q Hq0. unfold onScroll. by rewrite Hq0.
  - intros q. apply updateHeader_fields.
  - exact Ht.
  - by rewrite Hafter.
  - by rewrite Hafter, F4.
  - rewrite Hafter, F2. exact Hy.
  - intros hd e Hhd He.
    destruct (header_run_frame (map Scroll (ys ++ [y])) before) as [Hh1 Hl1].
    destruct (header_run_frame evs (settled p)) as [Hh0 Hl0].
    fold before in Hh0, Hl0. fold requested in Hh1, Hl1.
    assert (Hsome : is_Some (dom requested !! hd)).
    { apply lookup_lt_is_Some. rewrite Hl1, Hl0. cbn. by apply lookup_lt_Some in He. }
    destruct Hsome as [e0 He0].
    destruct (updateHeader_marker (set_rafQueue [] requested) hd e0) as (e' & H1 & H2).
    + cbn. by rewrite Hh1, Hh0.
    + exact He0.
    + exists e'. rewrite Hafter. split; [done|].
      rewrite H2. cbn [scrollY set_rafQueue]. rewrite Hy. apply Qltb_lt.
Qed.

Lemma throttle_evaluates_last_position_witness :
  let after := header_run [Frame]
                 (header_run (map Scroll ([10; 400] ++ [30]))%Q
                    (header_run [Scroll 90; Frame]%Q (settled (header_page 0 ["header"])))) in
  ticking (onScroll (header_page 0 [])) = true
  ∧ lastScrollY after = 30%Q
  ∧ ∃ e', dom after !! 0%nat = Some e' ∧ (has_class "scrolled" e' = true ↔ (50 < 30)%Q).
Proof.
  destruct (throttle_evaluates_last_position (header_page 0 ["header"])
              [Scroll 90; Frame]%Q [10; 400]%Q 30%Q)
    as (Hset & _ & _ & _ & _ & Hlast & Hmark).
  split; [exact (proj1 (Hset (header_page 0 []) eq_refl))|].
  split; [exact Hlast|].
  exact (Hmark 0%nat (Element "header" "header" ["header"] [] 1 0) eq_refl eq_refl).
Defined.

(** ** Mobile menu toggle *)

Lemma toggle_node_lookup (c x : string) (j i : nat) (p : page) (e : element) :
  dom p !! i = Some e →
  ∃ e', dom (update_node j (with_classes (toggle c)) p) !! i = Some e'
    ∧ has_class x e'
      = if bool_decide (j = i) && String.eqb x c then negb (has_class x e) else has_class x e.
Proof.
  intros He. cbn [dom update_node set_dom].
  destruct (decide (j = i)) as [->|Hne].
  - rewrite list_lookup_alter_eq, He. simpl. eexists; split; [reflexivity|].
    rewrite bool_decide_eq_true_2 by done. simpl.
    unfold has_class. cbn [classList with_classes]. apply contains_toggle.
  - rewrite list_lookup_alter_ne, bool_decide_eq_false_2 by done. eauto.
Qed.

Lemma navToggle_click_once (p : page) (t m : nat) (e : element) :
  navToggle p = Some t →
  navMenu p = Some m →
  dom p !! m = Some e →
  ∃ p' e', navToggle_click p = (Normal tt, p')
    ∧ navToggle p' = Some t
    ∧ navMenu p' = Some m
    ∧ dom p' !! m = Some e'
    ∧ has_class "active" e' = negb (has_class "active" e).
Proof.
  intros Ht Hm He. unfold navToggle_click. rewrite Hm.
  destruct (toggle_node_lookup "active" "active" m m p e He) as (e1 & H1 & A1).
  rewrite bool_decide_eq_true_2 in A1 by done. simpl in A1.
  cbn [navToggle update_node set_dom]. rewrite Ht.
  destruct (querySelectorIn _ t (is_tag "i")) as [icon|].
  - set (p1 := update_node m (with_classes (toggle "active")) p) in *.
    destruct (toggle_node_lookup "fa-bars" "active" icon m p1 e1 H1) as (e2 & H2 & A2).
    rewrite andb_false_r in A2.
    set (p2 := update_node icon (with_classes (toggle "fa-bars")) p1) in *.
    destruct (toggle_node_lookup "fa-times" "active" icon m p2 e2 H2) as (e3 & H3 & A3).
    rewrite andb_false_r in A3.
    eexists _, e3. split; [reflexivity|]. repeat split; [done|done|exact H3|].
    by rewrite A3, A2, A1.
  - eexists _, e1. split; [reflexivity|]. by repeat split.
Qed.

(** C4. Whatever the state of the menu's ['active'] class, two clicks on
    the navigation toggle (the listener both versions register) leave the
    class present exactly if it was present before. *)
Theorem navToggle_click_twice (p : page) (t m : nat) (e : element) :
  navToggle p = Some t →
  navMenu p = Some m →
  dom p !! m = Some e →
  ∃ p' e', (navToggle_click >> navToggle_click) p = (Normal tt, p')
    ∧ dom p' !! m = Some e'
    ∧ has_class "active" e' = has_class "active" e.
Proof.
  intros Ht Hm He.
  destruct (navToggle_click_once p t m e Ht Hm He) as (p1 & e1 & R1 & Ht1 & Hm1 & He1 & A1).
  destruct (navToggle_click_once p1 t m e1 Ht1 Hm1 He1) as (p2 & e2 & R2 & _ & _ & He2 & A2).
  exists p2, e2. unfold bind. rewrite R1, R2. repeat split; [done|].
  rewrite A2, A1. apply negb_involutive.
Qed.

Lemma navToggle_click_twice_witness :
  ∃ p' e', (navToggle_click >> navToggle_click) (menu_page ["nav__menu"; "active"]) = (Normal tt, p')
    ∧ dom p' !! 2%nat = Some e'
    ∧ has_class "active" e' = true.
Proof.
  apply (navToggle_click_twice (menu_page ["nav__menu"; "active"]) 0 2
           (Element "ul" "nav-menu" ["nav__menu"; "active"] [] 2 0)); reflexivity.
Defined.

Example navToggle_click_classes :
  map classList (dom (snd (navToggle_click (menu_page ["nav__menu"]))))
  = [["nav__toggle"]; ["fas"; "fa-times"]; ["nav__menu"; "active"]].
Proof. reflexivity. Qed.

(** ** Start-up *)

Lemma forEach_ind {A : Type} (R : A → Prop) (nodes : list nat) (body : nat → A → A) (a : A) :
  R a → (∀ i x, R x → R (body i x)) → R (forEach nodes body a).
Proof.
  unfold forEach. intros Ha Hstep. revert a Ha.
  induction nodes as [|i r IH]; intros a Ha; simpl; [done|].
  apply IH, Hstep, Ha.
Qed.

(** The steps before [enhanceAccessibility] leave the script's reference
    to the navigation toggle alone. *)
Lemma add_class_if_found_navToggle (c : string) (t : option nat) (p : page) :
  navToggle (add_class_if_found c t p) = navToggle p.
Proof. by destruct t. Qed.

Lemma initRevealAnimations_navToggle (p : page) :
  navToggle (initRevealAnimations p) = navToggle p.
Proof.
  unfold initRevealAnimations. cbn zeta.
  repeat (apply (forEach_ind (fun q => navToggle q = navToggle p)); [|by intros i x <-]).
  by rewrite !add_class_if_found_navToggle.
Qed.

Lemma smoothScroll_navToggle (p : page) : navToggle (smoothScroll p) = navToggle p.
Proof.
  unfold smoothScroll. destruct (navLinks p) as [|l r]; [done|].
  apply (forEach_ind (fun q => navToggle q = navToggle p)); [done|by intros i x <-].
Qed.

Lemma lazyLoadImages_navToggle (p : page) : navToggle (lazyLoadImages p) = navToggle p.
Proof.
  unfold lazyLoadImages.
  apply (forEach_ind (fun q => navToggle q = navToggle p)); [done|by intros i x <-].
Qed.

Lemma enhanceAccessibility_without_toggle (p : page) :
  navToggle p = None →
  enhanceAccessibility p
  = (Thrown (null_deref "navToggle.setAttribute"),
     addEventListener Document "keydown" EscapeKeydown p).
Proof. intros H. unfold enhanceAccessibility. cbn. by rewrite H. Qed.

(** C5: what the code does when the navigation toggle is absent.  In both
    versions [enhanceAccessibility] dereferences the missing toggle; the
    [catch] of [initializeApp] logs the [TypeError], and the steps after it
    ([handleError], [measurePerformance], the reveal scroll listener and
    the first [revealOnScroll]) do not run. *)
Theorem missing_navToggle_aborts_setup (highlightActiveSection : option (js unit)) (p : page) :
  navToggle p = None →
  let stopped :=
    addEventListener Document "keydown" EscapeKeydown
      (lazyLoadImages (smoothScroll (initRevealAnimations p))) in
  let logged := console_error init_error (null_deref "navToggle.setAttribute") stopped in
  V1.initializeApp highlightActiveSection p = (Normal tt, logged)
  ∧ V2.initializeApp p = (Normal tt, logged).
Proof.
  intros H.
  assert (Hthrow : enhanceAccessibility (lazyLoadImages (smoothScroll (initRevealAnimations p)))
                   = (Thrown (null_deref "navToggle.setAttribute"),
                      addEventListener Document "keydown" EscapeKeydown
                        (lazyLoadImages (smoothScroll (initRevealAnimations p))))).
  { apply enhanceAccessibility_without_toggle.
    by rewrite lazyLoadImages_navToggle, smoothScroll_navToggle, initRevealAnimations_navToggle. }
  split.
  - unfold V1.initializeApp, V1.setup_steps, try_catch, bind, run.
    by rewrite Hthrow.
  - unfold V2.initializeApp, V2.setup_steps, try_catch, bind, run.
    by rewrite Hthrow.
Qed.

Lemma missing_navToggle_aborts_setup_witness :
  let p := loaded_page (body_with []) in
  let stopped :=
    addEventListener Document "keydown" EscapeKeydown
      (lazyLoadImages (smoothScroll (initRevealAnimations p))) in
  let logged := console_error init_error (null_deref "navToggle.setAttribute") stopped in
  V1.initializeApp None p = (Normal tt, logged)
  ∧ V2.initializeApp p = (Normal tt, logged).
Proof.
  apply (missing_navToggle_aborts_setup None (loaded_page (body_with []))). reflexivity.
Defined.

(** On that document: without the toggle the card is tagged ['reveal'] but
    never revealed, the reveal listener is missing and an error is logged;
    with the toggle the card is revealed and nothing is logged. *)
Example setup_without_toggle :
  let p' := snd (V2.initializeApp (loaded_page (body_with []))) in
  classList <$> dom p' !! 6%nat = Some ["experience__card"; "reveal"]
  ∧ console p' = [ConsoleError init_error (null_deref "navToggle.setAttribute")]
  ∧ listeners p' = [(Node 4, "click", NavLinkSmoothScroll); (Document, "keydown", EscapeKeydown)].
Proof. vm_compute. repeat split. Qed.

Example setup_with_toggle :
  let p' := snd (V2.initializeApp (loaded_page (body_with toggle_button))) in
  classList <$> dom p' !! 7%nat = Some ["experience__card"; "reveal"; "active"]
  ∧ console p' = []
  ∧ (Window, "scroll", RevealScroll) ∈ listeners p'.
Proof.
  vm_compute. repeat split. repeat (first [apply list_elem_of_here | apply list_elem_of_further]).
Qed.

(** The back-to-top button, by contrast, is checked before use: without
    it the scroll listener changes no element and logs nothing. *)
Lemma backToTop_absent (p : page) :
  backToTopButton p = None →
  dom (backToTop_scroll p) = dom p ∧ console (backToTop_scroll p) = console p.
Proof.
  intros H. unfold backToTop_scroll, throttle, backToTop_update. rewrite H.
  by destruct (inThrottle p).
Qed.

(** With the toggle present the second version's set-up goes through and
    logs nothing, whichever of the header, the menu, the links and the
    back-to-top button are missing. *)
Lemma forEach_console (nodes : list nat) (body : nat → page → page) (p : page) :
  (∀ i x, console (body i x) = console x) →
  console (forEach nodes body p) = console p.
Proof.
  intros Hbody. apply (forEach_ind (fun q => console q = console p)); [done|].
  intros i x <-. apply Hbody.
Qed.

Lemma add_class_if_found_console (c : string) (t : option nat) (p : page) :
  console (add_class_if_found c t p) = console p.
Proof. by destruct t. Qed.

Lemma initRevealAnimations_console (p : page) :
  console (initRevealAnimations p) = console p.
Proof.
  unfold initRevealAnimations. cbn zeta.
  rewrite !forEach_console by done. by rewrite !add_class_if_found_console.
Qed.

Lemma smoothScroll_console (p : page) : console (smoothScroll p) = console p.
Proof.
  unfold smoothScroll. destruct (navLinks p); [done|]. by rewrite forEach_console.
Qed.

Lemma lazyLoadImages_console (p : page) : console (lazyLoadImages p) = console p.
Proof. unfold lazyLoadImages. by rewrite forEach_console. Qed.

Lemma handleError_console (p : page) : console (handleError p) = console p.
Proof.
  unfold handleError. cbn [console addEventListener set_listeners].
  by rewrite forEach_console.
Qed.

Lemma enhanceAccessibility_with_toggle (p : page) (t : nat) :
  navToggle p = Some t →
  ∃ p', enhanceAccessibility p = (Normal tt, p') ∧ console p' = console p.
Proof.
  intros Ht. unfold enhanceAccessibility.
  cbn [navToggle addEventListener set_listeners]. rewrite Ht.
  eexists. split; reflexivity.
Qed.

Lemma setup_quiet_with_toggle (p : page) (t : nat) :
  navToggle p = Some t →
  ∃ p', V2.initializeApp p = (Normal tt, p') ∧ console p' = console p.
Proof.
  intros Ht.
  destruct (enhanceAccessibility_with_toggle
              (lazyLoadImages (smoothScroll (initRevealAnimations p))) t)
    as (q & Hq & Hc).
  { by rewrite lazyLoadImages_navToggle, smoothScroll_navToggle,
               initRevealAnimations_navToggle. }
  exists (V2.revealOnScroll
            (addEventListener Window "scroll" RevealScroll
               (measurePerformance (handleError q)))).
  split.
  - unfold V2.initializeApp, V2.setup_steps, try_catch, bind, run. by rewrite Hq.
  - cbn [console V2.revealOnScroll set_dom addEventListener set_listeners measurePerformance].
    rewrite handleError_console, Hc.
    by rewrite lazyLoadImages_console, smoothScroll_console, initRevealAnimations_console.
Qed.

Lemma enhanceAccessibility_outcome (p : page) :
  enhanceAccessibility p
  = (match navToggle p with
     | Some _ => Normal tt
     | None => Thrown (null_deref "navToggle.setAttribute")
     end,
     snd (enhanceAccessibility p)).
Proof.
  unfold enhanceAccessibility. cbn [navToggle addEventListener set_listeners].
  by destruct (navToggle p).
Qed.

Lemma matching_from_nil (sel : element → bool) (k : nat) (d : list element) :
  matching_from sel k d = [] ↔ Forall (fun e => sel e = false) d.
Proof.
  revert k. induction d as [|x r IH]; intros k; simpl.
  - split; [constructor|done].
  - destruct (sel x) eqn:Hx.
    + split; [done|]. intros H. inversion H; congruence.
    + rewrite IH. split; [by constructor|]. intros H. by inversion H.
Qed.

Lemma querySelector_None (sel : element → bool) (d : list element) :
  querySelector sel d = None ↔ Forall (fun e => sel e = false) d.
Proof.
  unfold querySelector, querySelectorAll. rewrite <- (matching_from_nil sel 0).
  destruct (matching_from sel 0 d); simpl; split; done.
Qed.

Lemma set_textContent_body (node : nat) (d : list element) :
  document_body d = None → document_body (V1.set_textContent node d) = None.
Proof.
  unfold document_body, V1.set_textContent. rewrite !querySelector_None. intros H.
  destruct (d !! node); [|done].
  apply Forall_app. split; [by apply Forall_take|by apply Forall_drop].
Qed.

(** C6, as amended.  [initializeApp] runs [initRevealAnimations],
    [smoothScroll], [lazyLoadImages], [enhanceAccessibility],
    [handleError], [measurePerformance], the registration of the reveal
    scroll listener and the first [revealOnScroll] inside one [try], in
    this order, and never raises.  A failure of one of them (the missing
    toggle in [enhanceAccessibility]; in the first version also the call of
    [highlightActiveSection]) is caught and logged with [console.error],
    and the steps after the failing one do not run; without a failure
    nothing is logged as an error.  [initProfessionalFeatures] is called at
    the top level, outside that [try]: on a document without a body its
    failure is neither caught nor logged, and in the second version it
    ends the script before any other statement has run. *)
Theorem initializeApp_guarded (highlightActiveSection : option (js unit)) (p : page) :
  let checked := enhanceAccessibility (lazyLoadImages (smoothScroll (initRevealAnimations p))) in
  let rest := fun q => addEventListener Window "scroll" RevealScroll
                         (measurePerformance (handleError q)) in
  V2.initializeApp p
  = (Normal tt,
     match navToggle p with
     | None => console_error init_error (null_deref "navToggle.setAttribute") (snd checked)
     | Some _ => V2.revealOnScroll (rest (snd checked))
     end)
  ∧ V1.initializeApp highlightActiveSection p
    = (Normal tt,
       match navToggle p with
       | None => console_error init_error (null_deref "navToggle.setAttribute") (snd checked)
       | Some _ =>
           match highlightActiveSection with
           | None =>
               console_error init_error
                 (ReferenceError "highlightActiveSection is not defined")
                 (V1.revealOnScroll (rest (snd checked)))
           | Some f =>
               match f (V1.revealOnScroll (rest (snd checked))) with
               | (Normal _, q) => console_log "Website initialized successfully" q
               | (Thrown e, q) => console_error init_error e q
               end
           end
       end)
  ∧ (document_body (dom p) = None →
     V2.script p
     = (Thrown (null_deref "document.body.appendChild"),
        new_KeyboardNavigation (new_PerformanceObserver p))
     ∧ V1.initProfessionalFeatures p
       = (Thrown (null_deref "document.body.appendChild"), V1.new_TypeWriter p)).
Proof.
  intros checked rest.
  assert (Hnav : navToggle (lazyLoadImages (smoothScroll (initRevealAnimations p)))
                 = navToggle p).
  { by rewrite lazyLoadImages_navToggle, smoothScroll_navToggle,
               initRevealAnimations_navToggle. }
  pose proof (enhanceAccessibility_outcome
                (lazyLoadImages (smoothScroll (initRevealAnimations p)))) as Hout.
  rewrite Hnav in Hout. fold checked in Hout.
  split; [|split].
  - unfold V2.initializeApp, V2.setup_steps, try_catch, bind, run.
    fold checked. rewrite Hout. by destruct (navToggle p).
  - unfold V1.initializeApp, V1.setup_steps, try_catch, bind, run.
    fold checked. rewrite Hout. destruct (navToggle p); [|done].
    destruct highlightActiveSection as [f|]; [|done]. unfold V1.call_global.
    by destruct (f _) as [[[]|e] q].
  - intros Hbody. split.
    + unfold V2.script, V2.initProfessionalFeatures, new_LoadingAnimation, bind, run,
        append_to_body.
      assert (Hd : dom (new_KeyboardNavigation (new_PerformanceObserver p)) = dom p).
      { unfold new_KeyboardNavigation, new_PerformanceObserver.
        cbn [dom addEventListener set_listeners].
        apply (forEach_ind (fun q => dom q = dom p)); [done|by intros i x <-]. }
      by rewrite Hd, Hbody.
    + unfold V1.initProfessionalFeatures, V1.new_ScrollProgress, bind, run, append_to_body.
      assert (Hd : document_body (dom (V1.new_TypeWriter p)) = None).
      { unfold V1.new_TypeWriter. destruct (querySelector _ (dom p)); [|done].
        cbn [dom setTimeout set_timers set_dom]. by apply set_textContent_body. }
      by rewrite Hd.
Qed.

Lemma initializeApp_guarded_witness :
  V2.script head_page
  = (Thrown (null_deref "document.body.appendChild"),
     new_KeyboardNavigation (new_PerformanceObserver head_page))
  ∧ V1.initProfessionalFeatures head_page
    = (Thrown (null_deref "document.body.appendChild"), V1.new_TypeWriter head_page).
Proof.
  apply (proj2 (proj2 (initializeApp_guarded None head_page))). reflexivity.
Defined.

(** On the sample document with the toggle the second version's set-up
    logs nothing; the first version's ends in the [catch], because
    [highlightActiveSection] is declared nowhere. *)
Example initializeApp_first_version_logs :
  console (snd (V1.initializeApp None (loaded_page (body_with toggle_button))))
  = [ConsoleError init_error (ReferenceError "highlightActiveSection is not defined")]
  ∧ console (snd (V2.initializeApp (loaded_page (body_with toggle_button)))) = [].
Proof. vm_compute. split; reflexivity. Qed.

(** C6 as stated fails: the feature classes are set up at the top level,
    outside the [try].  When the script runs before the parser has reached
    the body, [document.body] is [null], the loader (in the first version
    the progress bar) cannot be appended, and the [TypeError] leaves the
    script uncaught and unlogged. *)
Lemma setup_failure_escapes :
  fst (V2.script head_page) = Thrown (null_deref "document.body.appendChild")
  ∧ console (snd (V2.script head_page)) = []
  ∧ fst (V1.initProfessionalFeatures head_page)
    = Thrown (null_deref "document.body.appendChild")
  ∧ console (snd (V1.initProfessionalFeatures head_page)) = [].
Proof. vm_compute. repeat split. Qed.

Example script_on_loaded_page :
  let r := V2.script (fresh_page (body_with toggle_button) 0 800 false) in
  fst r = Normal tt
  ∧ console (snd r) = [ConsoleLog "Page View:"]
  ∧ ticking (snd r) = false
  ∧ rafQueue (snd r) = [].
Proof. vm_compute. repeat split. Qed.

(** * Further properties *)

(** ** Token lists, continued *)

Lemma add_token_present (cl : list string) (c : string) :
  contains c cl = true → add_token cl c = cl.
Proof. intros H. unfold add_token. by rewrite H. Qed.

Lemma add_token_twice (cl : list string) (c : string) :
  add_token (add_token cl c) c = add_token cl c.
Proof.
  apply add_token_present. rewrite contains_add_token.
  by rewrite String.eqb_refl, orb_true_r.
Qed.

Lemma remove_token_filter (cl : list string) (c : string) :
  remove_token cl c = List.filter (fun x => negb (String.eqb x c)) cl.
Proof.
  induction cl as [|x r IH]; [done|]. simpl.
  destruct (String.eqb x c); simpl; by rewrite IH.
Qed.

Lemma filter_filter_and {A : Type} (f g : A → bool) (l : list A) :
  List.filter g (List.filter f l) = List.filter (fun x => f x && g x) l.
Proof.
  induction l as [|x r IH]; [done|]. simpl.
  destruct (f x); simpl; [destruct (g x); by rewrite IH | exact IH].
Qed.

Lemma remove_filter (ts cl : list string) :
  remove ts cl = List.filter (fun x => negb (contains x ts)) cl.
Proof.
  unfold remove. revert cl. induction ts as [|t r IH]; intros cl; simpl.
  - induction cl as [|x l IHl]; [done|]. simpl. by rewrite <- IHl.
  - rewrite IH, remove_token_filter, filter_filter_and.
    apply List.filter_ext. intros x. by rewrite negb_orb.
Qed.

Lemma remove_twice (ts cl : list string) : remove ts (remove ts cl) = remove ts cl.
Proof.
  rewrite !remove_filter, filter_filter_and.
  apply List.filter_ext. intros x. by destruct (contains x ts).
Qed.

Lemma remove_app (ts cl l : list string) : remove ts (cl ++ l) = remove ts cl ++ remove ts l.
Proof. rewrite !remove_filter. apply List.filter_app. Qed.

Lemma remove_absent (ts cl : list string) :
  (∀ x, contains x ts = true → contains x cl = false) → remove ts cl = cl.
Proof.
  intros H. rewrite remove_filter.
  induction cl as [|y r IH]; [done|]. simpl.
  destruct (contains y ts) eqn:Hy.
  - specialize (H y Hy). unfold contains in H. simpl in H.
    by rewrite String.eqb_refl in H.
  - simpl. f_equal. apply IH. intros x Hx. specialize (H x Hx).
    unfold contains in *. simpl in H. by apply orb_false_iff in H as [_ H].
Qed.

(** ** Running the reveal evaluator again *)

Lemma sel_reveal_add_active (e : element) :
  sel_reveal (with_classes (add ["active"]) e) = sel_reveal e.
Proof.
  unfold sel_reveal, has_class. cbn [classList with_classes].
  rewrite !contains_add. simpl. by rewrite !orb_false_r.
Qed.

Lemma reveal_element_twice (h : Q) (e : element) :
  reveal_element h (reveal_element h e) = reveal_element h e.
Proof.
  unfold reveal_element. destruct (Qltb (rectTop e) (h - 100)) eqn:Hlt.
  - cbn [rectTop with_classes]. rewrite Hlt.
    unfold with_classes. cbn. f_equal. apply add_token_twice.
  - by rewrite Hlt.
Qed.

Lemma revealed_twice (h : Q) (e : element) : revealed h (revealed h e) = revealed h e.
Proof.
  unfold revealed. destruct (sel_reveal e) eqn:Hs.
  - assert (Hs' : sel_reveal (reveal_element h e) = true).
    { unfold reveal_element. destruct (Qltb _ _); [|done]. by rewrite sel_reveal_add_active. }
    rewrite Hs'. apply reveal_element_twice.
  - by rewrite Hs.
Qed.

Lemma reveal_pass_twice (h : Q) (d : list element) :
  reveal_pass h (reveal_pass h d) = reveal_pass h d.
Proof.
  apply list_eq. intros i. rewrite !reveal_pass_lookup.
  destruct (d !! i) as [e|]; [|done]. simpl. f_equal. apply revealed_twice.
Qed.

(** X1. [revealOnScroll] of the second version is idempotent: a second run
    at the same layout leaves the page as the first run left it. *)
Theorem second_revealOnScroll_idempotent (p : page) :
  V2.revealOnScroll (V2.revealOnScroll p) = V2.revealOnScroll p.
Proof.
  unfold V2.revealOnScroll. destruct p. cbn [innerHeight dom set_dom].
  unfold set_dom. cbn. f_equal. apply reveal_pass_twice.
Qed.

(** X2. A run of the second version's [revealOnScroll] keeps the number
    and order of the elements and changes an element in one way only: it
    appends ['active'] to the class list of an element that did not carry
    it.  It removes no class. *)
Theorem second_revealOnScroll_only_appends (p : page) (i : nat) (e : element) :
  dom p !! i = Some e →
  length (dom (V2.revealOnScroll p)) = length (dom p)
  ∧ (dom (V2.revealOnScroll p) !! i = Some e
     ∨ (has_class "active" e = false
        ∧ dom (V2.revealOnScroll p) !! i
          = Some (with_classes (fun cl => cl ++ ["active"]) e))).
Proof.
  intros He. split.
  - unfold V2.revealOnScroll, reveal_pass. cbn [dom set_dom].
    apply (forEach_ind (fun d => length d = length (dom p))); [done|].
    intros j x Hx. by rewrite length_alter.
  - rewrite second_lookup, He. simpl.
    unfold revealed, reveal_element.
    destruct (sel_reveal e); [|by left]. destruct (Qltb _ _); [|by left].
    unfold with_classes, add. simpl. unfold add_token.
    destruct (contains "active" (classList e)) eqn:Ha.
    + left. by destruct e.
    + right. done.
Qed.

Lemma second_revealOnScroll_only_appends_witness :
  length (dom (V2.revealOnScroll card_page)) = length (dom card_page)
  ∧ (dom (V2.revealOnScroll card_page) !! 0%nat
     = Some (Element "div" "" ["experience__card"; "reveal"] [] 3 700)
     ∨ (has_class "active" (Element "div" "" ["experience__card"; "reveal"] [] 3 700) = false
        ∧ dom (V2.revealOnScroll card_page) !! 0%nat
          = Some (with_classes (fun cl => cl ++ ["active"])
                    (Element "div" "" ["experience__card"; "reveal"] [] 3 700)))).
Proof.
  apply (second_revealOnScroll_only_appends card_page 0
           (Element "div" "" ["experience__card"; "reveal"] [] 3 700)).
  reflexivity.
Defined.

Lemma add_present (ts cl : list string) :
  (∀ x, contains x ts = true → contains x cl = true) → add ts cl = cl.
Proof.
  unfold add. revert cl. induction ts as [|t r IH]; intros cl H; simpl; [done|].
  rewrite add_token_present.
  - apply IH. intros x Hx. apply H. unfold contains in *. simpl. by rewrite Hx, orb_true_r.
  - apply H. unfold contains. simpl. by rewrite String.eqb_refl.
Qed.

Lemma with_classes_id (e : element) (f : list string → list string) :
  f (classList e) = classList e → with_classes f e = e.
Proof. intros H. destruct e. unfold with_classes. cbn in *. by rewrite H. Qed.

Lemma with_classes_compose (e : element) (f g : list string → list string) :
  with_classes f (with_classes g e) = with_classes (fun cl => f (g cl)) e.
Proof. done. Qed.

Lemma highlight_section_sel (h : Q) (s : element) :
  sel_reveal (V1.highlight_section h s) = sel_reveal s.
Proof.
  unfold V1.highlight_section, sel_reveal, has_class.
  destruct (V1.in_band _ _).
  - destruct (contains "education-career" _); cbn [classList with_classes];
      rewrite ?contains_add; simpl; by rewrite ?orb_false_r.
  - cbn [classList with_classes]. rewrite !contains_remove. simpl. by rewrite !andb_true_r.
Qed.

Lemma highlight_section_top (h : Q) (s : element) :
  rectTop (V1.highlight_section h s) = rectTop s.
Proof.
  unfold V1.highlight_section. destruct (V1.in_band _ _); [|done].
  by destruct (has_class "education-career" _).
Qed.

Lemma highlight_section_twice (h : Q) (s : element) :
  V1.highlight_section h (V1.highlight_section h s) = V1.highlight_section h s.
Proof.
  unfold V1.highlight_section at 1.
  rewrite highlight_section_top.
  destruct (V1.in_band h (rectTop s)) eqn:Hb.
  - destruct (highlight_section_marks h s) as [H1 H2]. rewrite Hb in H1, H2.
    assert (Hid : with_classes (add ["section-highlight"; "active"]) (V1.highlight_section h s)
                  = V1.highlight_section h s).
    { apply with_classes_id, add_present. intros x Hx. unfold contains in Hx. simpl in Hx.
      rewrite orb_false_r in Hx. apply orb_true_iff in Hx as [Hx|Hx];
        apply String.eqb_eq in Hx; subst x; [exact H1|exact H2]. }
    rewrite Hid.
    destruct (has_class "education-career" (V1.highlight_section h s)) eqn:Hec; [|done].
    apply with_classes_id, add_present. intros x Hx. unfold contains in Hx. simpl in Hx.
    rewrite orb_false_r in Hx. apply String.eqb_eq in Hx. subst x.
    revert Hec. unfold V1.highlight_section. rewrite Hb.
    destruct (has_class "education-career" (with_classes _ s)) eqn:Hec0.
    + intros _. cbn [classList with_classes]. rewrite contains_add. simpl. by rewrite orb_true_r.
    + rewrite Hec0. done.
  - unfold V1.highlight_section. rewrite Hb. rewrite with_classes_compose.
    destruct s. unfold with_classes. cbn -[remove]. f_equal. apply remove_twice.
Qed.

Lemma highlight_section_after_reveal (h : Q) (s : element) :
  V1.highlight_section h (reveal_element h (V1.highlight_section h s))
  = V1.highlight_section h s.
Proof.
  unfold reveal_element. rewrite highlight_section_top.
  destruct (Qltb (rectTop s) (h - 100)); [|apply highlight_section_twice].
  destruct (V1.in_band h (rectTop s)) eqn:Hb.
  - destruct (highlight_section_marks h s) as [_ H2]. rewrite Hb in H2.
    rewrite (with_classes_id (V1.highlight_section h s)); [apply highlight_section_twice|].
    apply add_present. intros x Hx. unfold contains in Hx. simpl in Hx.
    rewrite orb_false_r in Hx. apply String.eqb_eq in Hx. by subst x.
  - unfold V1.highlight_section at 1. cbn [rectTop with_classes].
    rewrite highlight_section_top, Hb.
    unfold V1.highlight_section. rewrite Hb.
    destruct s. unfold with_classes, add. cbn -[remove add_token].
    f_equal. unfold add_token. rewrite contains_remove.
    replace (contains "active" ["section-highlight"; "active"; "section-glow"]) with true
      by reflexivity.
    rewrite andb_false_r, remove_app, remove_twice.
    replace (remove ["section-highlight"; "active"; "section-glow"] ["active"])
      with (@nil string) by reflexivity.
    apply app_nil_r.
Qed.

Lemma evaluated_first_twice (h : Q) (e : element) :
  evaluated_first h (evaluated_first h e) = evaluated_first h e.
Proof.
  unfold evaluated_first at 2. destruct (is_tag "section" e) eqn:Htag.
  - unfold evaluated_first, is_tag in *.
    rewrite highlight_section_tag, revealed_tag, Htag.
    unfold revealed at 1. rewrite highlight_section_sel.
    destruct (sel_reveal (revealed h e)).
    + apply highlight_section_after_reveal.
    + apply highlight_section_twice.
  - unfold evaluated_first, is_tag in *. rewrite revealed_tag, Htag. apply revealed_twice.
Qed.

(** X3. In the first version a second run of [revealOnScroll] at the same
    layout leaves every element as the first run left it (the document part
    of the run is idempotent). *)
Theorem first_revealOnScroll_dom_idempotent (p : page) :
  dom (V1.revealOnScroll (V1.revealOnScroll p)) = dom (V1.revealOnScroll p).
Proof.
  apply list_eq. intros i. rewrite first_lookup.
  assert (Hh : innerHeight (V1.revealOnScroll p) = innerHeight p) by done.
  rewrite Hh, first_lookup.
  destruct (dom p !! i) as [e|]; [|done]. simpl. f_equal. apply evaluated_first_twice.
Qed.

Lemma section_pass_timers (h : Q) (nodes : list nat) (d : list element) (ts : list task) :
  ts `prefix_of` (forEach nodes (V1.section_step h) (d, ts)).2
  ∧ ((∀ i s, i ∈ nodes → d !! i = Some s → V1.in_band h (rectTop s) = false) →
     (forEach nodes (V1.section_step h) (d, ts)).2 = ts).
Proof.
  unfold forEach. revert d ts. induction nodes as [|i r IH]; intros d ts; simpl; [done|].
  unfold V1.section_step at 2 4. simpl.
  destruct (d !! i) as [s|] eqn:Hs.
  2:{ destruct (IH d ts) as [H1 H2]. split; [done|].
      intros Hout. apply H2. intros j s' Hj. apply Hout. by right. }
  destruct (IH (alter (V1.highlight_section h) i d)
               (if V1.in_band h (rectTop s)
                then ts ++ V1.section_timers (alter (V1.highlight_section h) i d) i
                else ts)) as [Hpre Hsame].
  split.
  - etrans; [|exact Hpre]. destruct (V1.in_band _ _); [by apply prefix_app_r|done].
  - intros Hout.
    assert (Hi : V1.in_band h (rectTop s) = false) by (apply (Hout i); [by left|done]).
    rewrite Hi in Hsame. rewrite Hi. apply Hsame.
    intros j s' Hin Hj. destruct (decide (i = j)) as [->|Hne].
    + rewrite list_lookup_alter_eq, Hs in Hj. simpl in Hj. injection Hj as <-.
      by rewrite highlight_section_top.
    + rewrite list_lookup_alter_ne in Hj by done. apply (Hout j); [by right|done].
Qed.

(** X4. A run of the first version's [revealOnScroll] never cancels a
    pending timer: the timers pending before the run are a prefix of those
    pending after it.  When no [section] element is inside the highlight
    band the run starts no timer at all. *)
Theorem first_revealOnScroll_timers (p : page) :
  timers p `prefix_of` timers (V1.revealOnScroll p)
  ∧ ((∀ i s, dom p !! i = Some s → localName s = "section" →
             V1.in_band (innerHeight p) (rectTop s) = false) →
     timers (V1.revealOnScroll p) = timers p).
Proof.
  unfold V1.revealOnScroll. cbn [timers set_timers set_dom].
  destruct (section_pass_timers (innerHeight p)
              (querySelectorAll (is_tag "section") (dom p))
              (reveal_pass (innerHeight p) (dom p)) (timers p)) as [Hpre Hsame].
  split; [exact Hpre|].
  intros Hout. apply Hsame. intros i s Hin Hs.
  apply querySelectorAll_spec in Hin as (e0 & He0 & Htag).
  rewrite reveal_pass_lookup, He0 in Hs. simpl in Hs. injection Hs as <-.
  rewrite revealed_top. apply (Hout i); [done|].
  unfold is_tag in Htag. by apply String.eqb_eq.
Qed.

Lemma first_revealOnScroll_timers_witness :
  timers tagged_section_page `prefix_of` timers (V1.revealOnScroll tagged_section_page)
  ∧ timers (V1.revealOnScroll (relayout 800 [900%Q] tagged_section_page))
    = timers (relayout 800 [900%Q] tagged_section_page).
Proof.
  split.
  - apply (proj1 (first_revealOnScroll_timers tagged_section_page)).
  - apply (proj2 (first_revealOnScroll_timers (relayout 800 [900%Q] tagged_section_page))).
    intros [|i] s Hs _; [|discriminate]. injection Hs as <-. reflexivity.
Defined.

(** In a highlighted section every further run queues the timers of its
    groups and cards again. *)
Example first_revealOnScroll_timers_pile_up :
  let d := [Element "section" "education" ["section"] [] 1 100;
            Element "div" "" ["section-group"] [] 2 120;
            Element "div" "" ["job-card"] [] 3 150] in
  map (fun n => length (timers (reveal_run First (repeat Evaluate n) (fresh_page d 0 800 false))))
      [0; 1; 2; 3]%nat
  = [0; 2; 4; 6]%nat.
Proof. reflexivity. Qed.

(** ** Element updates that keep the tree *)

Lemma subtree_len_shape (dp : nat) (l l' : list element) :
  shape <$> l = shape <$> l' → subtree_len dp l = subtree_len dp l'.
Proof.
  revert l'. induction l as [|x r IH]; intros [|y r'] H; simpl in *; try done.
  injection H as _ Hd Hr. rewrite Hd. destruct (dp <? depth y)%nat; [|done]. f_equal. by apply IH.
Qed.

Lemma lookup_shape (d d' : list element) (i : nat) :
  shape <$> d = shape <$> d' → shape <$> d !! i = shape <$> d' !! i.
Proof. intros H. by rewrite <- !list_lookup_fmap, H. Qed.

Lemma querySelectorIn_tag_shape (d d' : list element) (root : nat) (tag : string) :
  shape <$> d = shape <$> d' →
  querySelectorIn d root (is_tag tag) = querySelectorIn d' root (is_tag tag).
Proof.
  intros H. unfold querySelectorIn, querySelectorAllIn. f_equal.
  assert (Hdesc : descendants d root = descendants d' root).
  { unfold descendants. pose proof (lookup_shape d d' root H) as Hl.
    destruct (d !! root) as [e|], (d' !! root) as [e'|]; simpl in Hl; try done.
    injection Hl as _ Hd. rewrite Hd. f_equal.
    apply subtree_len_shape. by rewrite !fmap_drop, H. }
  rewrite Hdesc. apply List.filter_ext. intros j. unfold matches_at.
  pose proof (lookup_shape d d' j H) as Hl.
  destruct (d !! j) as [e|], (d' !! j) as [e'|]; simpl in Hl; try done.
  injection Hl as Ht _. unfold is_tag. by rewrite Ht.
Qed.

Lemma alter_shape (f : element → element) (i : nat) (d : list element) :
  (∀ e, shape (f e) = shape e) → shape <$> alter f i d = shape <$> d.
Proof.
  intros Hf. apply list_eq. intros j. rewrite !list_lookup_fmap.
  destruct (decide (i = j)) as [->|Hne].
  - rewrite list_lookup_alter_eq. destruct (d !! j); [|done]. simpl. by rewrite Hf.
  - by rewrite list_lookup_alter_ne.
Qed.



(** ** Closing the menu *)

Lemma class_update_lookup (f : list string → list string) (j i : nat) (p : page) (e : element) :
  dom p !! i = Some e →
  ∃ e', dom (update_node j (with_classes f) p) !! i = Some e'
    ∧ classList e' = (if bool_decide (j = i) then f (classList e) else classList e).
Proof.
  intros He. cbn [dom update_node set_dom]. destruct (decide (j = i)) as [->|Hne].
  - rewrite list_lookup_alter_eq, He, bool_decide_eq_true_2 by done. simpl. eauto.
  - rewrite list_lookup_alter_ne, bool_decide_eq_false_2 by done. eauto.
Qed.

(** X5. After the click listener of a navigation link has run, the menu
    does not carry ['active'], whatever it carried before, and the icon of
    the toggle, when there is one, carries ['fa-bars'] and not
    ['fa-times']. *)
Theorem navLink_close_closes (p : page) :
  (∀ m e, navMenu p = Some m → dom p !! m = Some e →
     ∃ e', dom (navLink_close p) !! m = Some e' ∧ has_class "active" e' = false)
  ∧ (∀ t ic e, navToggle p = Some t →
       querySelectorIn (dom p) t (is_tag "i") = Some ic → dom p !! ic = Some e →
       ∃ e', dom (navLink_close p) !! ic = Some e'
         ∧ has_class "fa-bars" e' = true ∧ has_class "fa-times" e' = false).
Proof.
  unfold navLink_close.
  set (p1 := match navMenu p with
             | Some m => update_node m (with_classes (remove ["active"])) p
             | None => p
             end).
  assert (Htog : navToggle p1 = navToggle p) by (unfold p1; by destruct (navMenu p)).
  assert (Hicon : ∀ t, querySelectorIn (dom p1) t (is_tag "i")
                       = querySelectorIn (dom p) t (is_tag "i")).
  { intros t. apply querySelectorIn_tag_shape. unfold p1. destruct (navMenu p); [|done].
    by apply alter_shape. }
  split.
  - intros m e Hm He.
    assert (H1 : ∃ e1, dom p1 !! m = Some e1 ∧ has_class "active" e1 = false).
    { unfold p1. rewrite Hm.
      destruct (class_update_lookup (remove ["active"]) m m p e He) as (e1 & He1 & Hc).
      exists e1. split; [done|]. rewrite bool_decide_eq_true_2 in Hc by done.
      unfold has_class. rewrite Hc, contains_remove. simpl. by rewrite andb_false_r. }
    destruct H1 as (e1 & He1 & Ha1).
    destruct (match navToggle p1 with
              | Some t => querySelectorIn (dom p1) t (is_tag "i")
              | None => None
              end) as [ic|]; [|eauto].
    destruct (class_update_lookup (remove ["fa-times"]) ic m p1 e1 He1) as (e2 & He2 & Hc2).
    destruct (class_update_lookup (add ["fa-bars"]) ic m _ e2 He2) as (e3 & He3 & Hc3).
    exists e3. split; [exact He3|]. unfold has_class in *. rewrite Hc3, Hc2.
    destruct (bool_decide (ic = m)); [|done].
    rewrite contains_add, contains_remove, Ha1. done.
  - intros t ic e Ht Hic He. rewrite Htog, Ht, Hicon, Hic.
    assert (H1 : ∃ e1, dom p1 !! ic = Some e1).
    { unfold p1. destruct (navMenu p) as [m|]; [|eauto].
      destruct (class_update_lookup (remove ["active"]) m ic p e He) as (e1 & He1 & _). eauto. }
    destruct H1 as (e1 & He1).
    destruct (class_update_lookup (remove ["fa-times"]) ic ic p1 e1 He1) as (e2 & He2 & Hc2).
    destruct (class_update_lookup (add ["fa-bars"]) ic ic _ e2 He2) as (e3 & He3 & Hc3).
    exists e3. split; [exact He3|]. unfold has_class. rewrite Hc3, Hc2.
    rewrite !bool_decide_eq_true_2 by done. rewrite !contains_add, !contains_remove. simpl.
    by rewrite orb_true_r, !andb_false_r.
Qed.

Lemma navLink_close_closes_witness :
  (∃ e', dom (navLink_close (snd (navToggle_click (menu_page ["nav__menu"])))) !! 2%nat = Some e'
         ∧ has_class "active" e' = false)
  ∧ (∃ e', dom (navLink_close (snd (navToggle_click (menu_page ["nav__menu"])))) !! 1%nat = Some e'
           ∧ has_class "fa-bars" e' = true ∧ has_class "fa-times" e' = false).
Proof.
  pose proof (navLink_close_closes (snd (navToggle_click (menu_page ["nav__menu"])))) as [H1 H2].
  split.
  - apply (H1 2%nat (Element "ul" "nav-menu" ["nav__menu"; "active"] [] 2 0)); reflexivity.
  - apply (H2 0%nat 1%nat (Element "i" "" ["fas"; "fa-times"] [] 3 0)); reflexivity.
Defined.

(** X6. The click listener of the toggle raises exactly when the menu or
    the toggle is missing.  The second version registers it only when both
    exist. *)
Theorem navToggle_click_raises_iff (p : page) :
  (fst (navToggle_click p) = Normal tt ↔ is_Some (navMenu p) ∧ is_Some (navToggle p))
  ∧ (V2.initMobileMenu p = p ∨ (is_Some (navMenu p) ∧ is_Some (navToggle p))).
Proof.
  split.
  - unfold navToggle_click. destruct (navMenu p) as [m|]; cbn [navToggle update_node set_dom].
    + destruct (navToggle p) as [t|].
      * destruct (querySelectorIn _ t _); simpl; split; eauto.
      * simpl. split; [done|]. intros [_ [x Hx]]. done.
    + simpl. split; [done|]. intros [[x Hx] _]. done.
  - unfold V2.initMobileMenu. destruct (navToggle p), (navMenu p); eauto.
Qed.

Example first_version_toggle_without_menu :
  let p := Page [Element "button" "nav-toggle" [] [] 1 0] 0 800 false
                (Some 0%nat) None [] None None false 0 false [] [] [] [] [] in
  fst (navToggle_click p) = Thrown (null_deref "navMenu.classList")
  ∧ V2.initMobileMenu p = p.
Proof. split; reflexivity. Qed.

(** ** The Escape key *)

Lemma matches_at_true (sel : element → bool) (d : list element) (i : nat) :
  matches_at sel d i = true → ∃ e, d !! i = Some e ∧ sel e = true.
Proof. unfold matches_at. destruct (d !! i); [eauto|done]. Qed.

Lemma closed_lookup (m : nat) (p : page) (e : element) :
  dom p !! m = Some e →
  ∃ e', dom (update_node m (with_classes (remove ["active"])) p) !! m = Some e'
    ∧ has_class "active" e' = false.
Proof.
  intros He.
  destruct (class_update_lookup (remove ["active"]) m m p e He) as (e1 & He1 & Hc).
  exists e1. split; [done|]. rewrite bool_decide_eq_true_2 in Hc by done.
  unfold has_class. rewrite Hc, contains_remove. simpl. by rewrite andb_false_r.
Qed.

Lemma icon_after_close (m t : nat) (p : page) :
  querySelectorIn (dom (update_node m (with_classes (remove ["active"])) p)) t (is_tag "i")
  = querySelectorIn (dom p) t (is_tag "i").
Proof. apply querySelectorIn_tag_shape. by apply alter_shape. Qed.

Lemma escape_keydown_closed (p : page) (m : nat) :
  navMenu p = Some m → matches_at (has_class "active") (dom p) m = false →
  escape_keydown "Escape" p = (Normal tt, p).
Proof. intros Hm Ha. unfold escape_keydown. simpl. by rewrite Hm, Ha. Qed.

(** X7. The [keydown] listener of [enhanceAccessibility] changes nothing
    for a key other than Escape, and nothing for Escape while the menu is
    closed.  For Escape with the menu open, and an icon in the toggle, it
    returns normally and leaves the menu without ['active']. *)
Theorem escape_keydown_closes (key : string) (p : page) :
  (key ≠ "Escape" → escape_keydown key p = (Normal tt, p))
  ∧ (∀ m, navMenu p = Some m → matches_at (has_class "active") (dom p) m = false →
       escape_keydown "Escape" p = (Normal tt, p))
  ∧ (∀ m t ic, navMenu p = Some m → matches_at (has_class "active") (dom p) m = true →
       navToggle p = Some t → querySelectorIn (dom p) t (is_tag "i") = Some ic →
       ∃ p' e', escape_keydown "Escape" p = (Normal tt, p')
         ∧ dom p' !! m = Some e' ∧ has_class "active" e' = false).
Proof.
  split; [|split].
  - intros Hk. unfold escape_keydown. by destruct (String.eqb_spec key "Escape").
  - intros m Hm Ha. by apply (escape_keydown_closed p m).
  - intros m t ic Hm Ha Ht Hic. unfold escape_keydown. simpl String.eqb. cbv iota.
    rewrite Hm, Ha. cbn [navToggle update_node set_dom].
    rewrite Ht. rewrite (icon_after_close m t p), Hic.
    apply matches_at_true in Ha as (e & He & _).
    destruct (closed_lookup m p e He) as (e1 & He1 & Ha1).
    destruct (class_update_lookup (remove ["fa-times"]) ic m _ e1 He1) as (e2 & He2 & Hc2).
    destruct (class_update_lookup (add ["fa-bars"]) ic m _ e2 He2) as (e3 & He3 & Hc3).
    eexists _, e3. split; [reflexivity|]. split; [exact He3|].
    unfold has_class in *. rewrite Hc3, Hc2. destruct (bool_decide (ic = m)); [|done].
    by rewrite contains_add, contains_remove, Ha1.
Qed.

Lemma escape_keydown_closes_witness :
  ∃ p' e', escape_keydown "Escape" (menu_page ["nav__menu"; "active"]) = (Normal tt, p')
    ∧ dom p' !! 2%nat = Some e' ∧ has_class "active" e' = false.
Proof.
  apply (proj2 (proj2 (escape_keydown_closes "Escape" (menu_page ["nav__menu"; "active"])))
           2%nat 0%nat 1%nat); reflexivity.
Defined.

(** X8. The same listener raises a [TypeError] on Escape when the menu is
    missing, and, after it has closed an open menu, when the toggle
    contains no [i] element: the icon is dereferenced without a check. *)
Theorem escape_keydown_raises (p : page) :
  (navMenu p = None →
     escape_keydown "Escape" p = (Thrown (null_deref "navMenu.classList"), p))
  ∧ (∀ m t, navMenu p = Some m → matches_at (has_class "active") (dom p) m = true →
       navToggle p = Some t → querySelectorIn (dom p) t (is_tag "i") = None →
       escape_keydown "Escape" p
       = (Thrown (null_deref "icon.classList"),
          update_node m (with_classes (remove ["active"])) p)).
Proof.
  split.
  - intros Hm. unfold escape_keydown. simpl. by rewrite Hm.
  - intros m t Hm Ha Ht Hic. unfold escape_keydown. simpl String.eqb. cbv iota.
    rewrite Hm, Ha. cbn [navToggle update_node set_dom].
    rewrite Ht. by rewrite (icon_after_close m t p), Hic.
Qed.

Lemma escape_keydown_raises_witness :
  escape_keydown "Escape" plain_menu_page
  = (Thrown (null_deref "icon.classList"),
     update_node 1 (with_classes (remove ["active"])) plain_menu_page).
Proof.
  apply (proj2 (escape_keydown_raises plain_menu_page) 1%nat 0%nat); reflexivity.
Defined.

(** ** aria-expanded *)

Lemma attribute_with_attribute (k v : string) (e : element) :
  attribute k (with_attribute k v e) = Some v.
Proof. unfold attribute, with_attribute. simpl. by rewrite String.eqb_refl. Qed.

(** X9. After a click on the toggle, handled first by the menu listener and
    then by the listener of [enhanceAccessibility], the toggle's
    [aria-expanded] attribute reads ["true"] exactly when the menu carries
    ['active'], and ["false"] otherwise. *)
Theorem ariaExpanded_follows_menu (p : page) (t m : nat) (et em : element) :
  navToggle p = Some t →
  navMenu p = Some m →
  dom p !! t = Some et →
  dom p !! m = Some em →
  ∃ p' et' em', (navToggle_click >> ariaExpanded_click) p = (Normal tt, p')
    ∧ dom p' !! t = Some et' ∧ dom p' !! m = Some em'
    ∧ has_class "active" em' = negb (has_class "active" em)
    ∧ attribute "aria-expanded" et'
      = Some (if has_class "active" em' then "true" else "false").
Proof.
  intros Ht Hm Het Hem.
  destruct (navToggle_click_once p t m em Ht Hm Hem) as (p1 & em1 & R1 & Ht1 & Hm1 & Hem1 & A1).
  assert (Hlen : ∃ et1, dom p1 !! t = Some et1).
  { assert (Hl : length (dom p1) = length (dom p)).
    { revert R1. unfold navToggle_click. rewrite Hm. cbn [navToggle update_node set_dom].
      rewrite Ht. destruct (querySelectorIn _ t _); intros [= <-]; cbn;
        by rewrite ?length_alter. }
    apply lookup_lt_is_Some. rewrite Hl. by apply lookup_lt_Some in Het. }
  destruct Hlen as (et1 & Het1).
  unfold bind. rewrite R1. unfold ariaExpanded_click. rewrite Hm1, Ht1.
  set (v := if matches_at (has_class "active") (dom p1) m then "true" else "false").
  assert (Hv : v = if has_class "active" em1 then "true" else "false").
  { unfold v, matches_at. by rewrite Hem1. }
  clearbody v.
  exists (update_node t (with_attribute "aria-expanded" v) p1),
         (with_attribute "aria-expanded" v et1),
         (if bool_decide (t = m) then with_attribute "aria-expanded" v em1 else em1).
  split; [reflexivity|].
  cbn [dom update_node set_dom]. rewrite list_lookup_alter_eq, Het1. simpl.
  split; [done|].
  assert (Hcls : has_class "active"
                   (if bool_decide (t = m) then with_attribute "aria-expanded" v em1 else em1)
                 = has_class "active" em1).
  { by destruct (bool_decide (t = m)). }
  split; [|split].
  - destruct (decide (t = m)) as [->|Hne].
    + rewrite list_lookup_alter_eq, Hem1, bool_decide_eq_true_2 by done. done.
    + rewrite list_lookup_alter_ne, Hem1, bool_decide_eq_false_2 by done. done.
  - by rewrite Hcls.
  - by rewrite attribute_with_attribute, Hcls, Hv.
Qed.

Lemma ariaExpanded_follows_menu_witness :
  ∃ p' et' em', (navToggle_click >> ariaExpanded_click) (menu_page ["nav__menu"]) = (Normal tt, p')
    ∧ dom p' !! 0%nat = Some et' ∧ dom p' !! 2%nat = Some em'
    ∧ has_class "active" em' = true
    ∧ attribute "aria-expanded" et'
      = Some (if has_class "active" em' then "true" else "false").
Proof.
  apply (ariaExpanded_follows_menu (menu_page ["nav__menu"]) 0 2
           (Element "button" "nav-toggle" ["nav__toggle"] [] 2 0)
           (Element "ul" "nav-menu" ["nav__menu"] [] 2 0)); reflexivity.
Defined.

(** The other ways of closing the menu leave the attribute as it is. *)
Example ariaExpanded_stale_after_link_click :
  let opened := snd ((navToggle_click >> ariaExpanded_click) (menu_page ["nav__menu"])) in
  let closed := navLink_close opened in
  (has_class "active" <$> dom closed !! 2%nat) = Some false
  ∧ (attribute "aria-expanded" <$> dom closed !! 0%nat) = Some (Some "true").
Proof. split; reflexivity. Qed.

(** ** Keyboard shortcuts *)

(** X10. [handleKeyboard] changes the document for the Escape key only:
    it takes ['active'] off the first element that carries both
    ['nav__menu'] and ['active'], and for every other key it leaves the
    page as it is. *)
Theorem handleKeyboard_escape (e : KeyboardEvent) (p : page) :
  (key e ≠ "Escape" → fst (handleKeyboard e p) = p)
  ∧ (key e = "Escape" →
     ∀ menu x, querySelector open_menu (dom p) = Some menu → dom p !! menu = Some x →
       ∃ x', dom (fst (handleKeyboard e p)) !! menu = Some x'
         ∧ has_class "active" x' = false
         ∧ ∀ j, j ≠ menu → dom (fst (handleKeyboard e p)) !! j = dom p !! j).
Proof.
  unfold handleKeyboard. split.
  - intros Hk. destruct (String.eqb_spec (key e) "Escape"); [done|].
    by destruct (plain "Home" e), (plain "End" e).
  - intros Hk menu x Hq Hx. rewrite Hk. simpl String.eqb. cbv iota.
    rewrite Hq.
    destruct (closed_lookup menu p x Hx) as (x' & Hx' & Ha).
    exists x'.
    assert (Hfst : ∀ q : page,
               fst (let '(prevented, request) :=
                      if plain "Home" e then (true, Some ScrollToTop)
                      else (plain "/" e, None) in
                    let '(prevented0, request0) :=
                      if plain "End" e then (true, Some ScrollToBottom)
                      else (prevented, request) in
                    (q, (prevented0, request0))) = q).
    { intros q. by destruct (plain "Home" e), (plain "End" e). }
    rewrite Hfst. split; [exact Hx'|]. split; [exact Ha|].
    intros j Hj. cbn [dom update_node set_dom]. by rewrite list_lookup_alter_ne.
Qed.

Lemma handleKeyboard_escape_witness :
  ∃ x', dom (fst (handleKeyboard escape_event (menu_page ["nav__menu"; "active"]))) !! 2%nat = Some x'
    ∧ has_class "active" x' = false
    ∧ ∀ j, j ≠ 2%nat →
        dom (fst (handleKeyboard escape_event (menu_page ["nav__menu"; "active"]))) !! j
        = dom (menu_page ["nav__menu"; "active"]) !! j.
Proof.
  apply (proj2 (handleKeyboard_escape escape_event (menu_page ["nav__menu"; "active"]))
           eq_refl 2%nat (Element "ul" "nav-menu" ["nav__menu"; "active"] [] 2 0));
    reflexivity.
Defined.



Example escape_leaves_icon_as_times :
  let p := snd (navToggle_click (menu_page ["nav__menu"])) in
  let p' := snd (escape_keydown "Escape" (fst (handleKeyboard escape_event p))) in
  map classList (dom p') = [["nav__toggle"]; ["fas"; "fa-times"]; ["nav__menu"]].
Proof. reflexivity. Qed.

Example escape_listener_order :
  let r := V2.script (fresh_page (body_with toggle_button) 0 800 false) in
  List.filter (fun l => String.eqb (snd (fst l)) "keydown") (listeners (snd r))
  = [(Document, "keydown", KeyboardShortcuts); (Document, "keydown", EscapeKeydown)].
Proof. vm_compute. reflexivity. Qed.

(** ** The back-to-top button *)

(** X12. A scroll event that arrives while the back-to-top listener is
    throttled changes nothing.  One that arrives outside the throttle
    window leaves the button with ['show'] exactly when the page is
    scrolled by more than 300, raises the throttle flag and starts the
    timer that will clear it. *)
Theorem backToTop_scroll_shows (p : page) :
  (inThrottle p = true → backToTop_scroll p = p)
  ∧ (inThrottle p = false →
     inThrottle (backToTop_scroll p) = true
     ∧ timers (backToTop_scroll p) = timers p ++ [ThrottleReset 100]
     ∧ ∀ b e, backToTopButton p = Some b → dom p !! b = Some e →
         ∃ e', dom (backToTop_scroll p) !! b = Some e'
           ∧ (has_class "show" e' = true ↔ (300 < scrollY p)%Q)).
Proof.
  unfold backToTop_scroll, throttle. split.
  - by intros ->.
  - intros ->. simpl negb. cbv iota. split; [done|]. split.
    + unfold backToTop_update. destruct (backToTopButton p); [|done].
      by destruct (Qltb 300 (scrollY p)).
    + intros b e Hb He. unfold backToTop_update. rewrite Hb.
      destruct (Qltb 300 (scrollY p)) eqn:Hlt.
      * destruct (class_update_lookup (add ["show"]) b b p e He) as (e' & He' & Hc).
        exists e'. split; [exact He'|]. rewrite bool_decide_eq_true_2 in Hc by done.
        unfold has_class. rewrite Hc, contains_add. simpl. rewrite orb_true_r.
        split; [intros _; by apply Qltb_lt|done].
      * destruct (class_update_lookup (remove ["show"]) b b p e He) as (e' & He' & Hc).
        exists e'. split; [exact He'|]. rewrite bool_decide_eq_true_2 in Hc by done.
        unfold has_class. rewrite Hc, contains_remove. simpl. rewrite andb_false_r.
        split; [done|]. intros Hgt. apply Qltb_lt in Hgt. congruence.
Qed.

Lemma backToTop_scroll_shows_witness :
  ∃ e', dom (backToTop_scroll (set_scrollY 301 (loaded_page (body_with [])))) !! 7%nat = Some e'
    ∧ (has_class "show" e' = true ↔ (300 < 301)%Q).
Proof.
  apply (proj2 (proj2 (proj2 (backToTop_scroll_shows
                                (set_scrollY 301 (loaded_page (body_with [])))) eq_refl))
           7%nat (Element "a" "back-to-top" ["back-to-top"] [("href", "#")] 2 0));
    reflexivity.
Defined.

Lemma delete_filter_length {A : Type} (f : A → bool) (k : nat) (l : list A) (x : A) :
  l !! k = Some x →
  (length (List.filter f (delete k l)) + (if f x then 1 else 0))%nat
  = length (List.filter f l).
Proof.
  revert k. induction l as [|y r IH]; intros [|k] H; simpl in *; try done.
  - injection H as ->. destruct (f x); simpl; lia.
  - specialize (IH k H). destruct (f y); simpl; lia.
Qed.

Lemma filter_app_length {A : Type} (f : A → bool) (l1 l2 : list A) :
  length (List.filter f (l1 ++ l2))
  = (length (List.filter f l1) + length (List.filter f l2))%nat.
Proof. by rewrite List.filter_app, length_app. Qed.

Lemma backToTop_step_inv (p : page) (ev : throttle_event) :
  resets_pending p = (if inThrottle p then 1 else 0)%nat →
  resets_pending (backToTop_step p ev)
  = (if inThrottle (backToTop_step p ev) then 1 else 0)%nat.
Proof.
  unfold resets_pending. intros H. destruct ev as [y|k]; cbn [backToTop_step].
  - unfold backToTop_scroll, throttle. cbn [inThrottle set_scrollY].
    destruct (inThrottle p) eqn:Hin; simpl negb; cbv iota.
    + cbn. by rewrite Hin.
    + cbn [inThrottle timers setTimeout set_timers set_inThrottle].
      rewrite filter_app_length. simpl.
      assert (Ht : timers (backToTop_update (set_scrollY y p)) = timers p).
      { unfold backToTop_update. cbn. destruct (backToTopButton p); [|done].
        by destruct (Qltb 300 y). }
      rewrite Ht, H. done.
  - unfold fire_timer. destruct (timers p !! k) as [t|] eqn:Hk; [|done].
    pose proof (delete_filter_length is_reset k (timers p) t Hk) as Hd.
    destruct t as [dl node tokens|dl|node]; simpl in Hd |- *.
    + rewrite <- H. lia.
    + destruct (inThrottle p); lia.
    + rewrite filter_app_length. simpl. rewrite <- H. lia.
Qed.

(** X13. Starting with the throttle released and no reset timer pending,
    through any scroll events and timer firings a reset timer is pending
    exactly while the back-to-top listener is throttled, and never more
    than one: a raised flag always has the timer that will release it. *)
Theorem backToTop_throttle_released (p : page) (evs : list throttle_event) :
  inThrottle p = false →
  resets_pending p = 0%nat →
  resets_pending (backToTop_run evs p)
  = (if inThrottle (backToTop_run evs p) then 1 else 0)%nat.
Proof.
  intros Hin H0.
  assert (H : resets_pending p = (if inThrottle p then 1 else 0)%nat) by (by rewrite Hin).
  clear Hin H0. unfold backToTop_run. revert p H.
  induction evs as [|ev r IH]; intros p H; simpl; [done|].
  apply IH. by apply backToTop_step_inv.
Qed.

Lemma backToTop_throttle_released_witness :
  resets_pending
    (backToTop_run [PageScroll 400; PageScroll 0; TimerElapsed 0; PageScroll 20]%Q
       (loaded_page (body_with [])))
  = (if inThrottle
          (backToTop_run [PageScroll 400; PageScroll 0; TimerElapsed 0; PageScroll 20]%Q
             (loaded_page (body_with [])))
     then 1 else 0)%nat.
Proof.
  apply (backToTop_throttle_released (loaded_page (body_with []))); reflexivity.
Defined.

(** Unlike the animation-frame throttle of the header, this one drops the
    last position of a burst: the page is back at the top, the button is
    still shown until a later scroll event arrives. *)
Example backToTop_last_position_dropped :
  let burst := backToTop_run [PageScroll 400; PageScroll 0; TimerElapsed 0]%Q
                 (loaded_page (body_with [])) in
  scrollY burst = 0%Q
  ∧ (classList <$> dom burst !! 7%nat) = Some ["back-to-top"; "show"]
  ∧ (classList <$> dom (backToTop_run [PageScroll 0]%Q burst) !! 7%nat) = Some ["back-to-top"].
Proof. vm_compute. repeat split. Qed.

(** ** Tagging for the reveal animation *)



Lemma grows_add (c : string) (e : element) :
  grows e (with_classes (add [c]) e) ∧ has_class c (with_classes (add [c]) e) = true.
Proof.
  split.
  - repeat split. intros x Hx. unfold has_class in *. cbn [classList with_classes].
    by rewrite contains_add, Hx.
  - unfold has_class. cbn [classList with_classes]. rewrite contains_add. simpl.
    by rewrite String.eqb_refl, orb_true_r.
Qed.






(** ** The top level of the second version *)

Lemma script_split : V2.script = (V2.initProfessionalFeatures >> after_features).
Proof. unfold V2.script, after_features. reflexivity. Qed.

Lemma forEach_dom (nodes : list nat) (body : nat → page → page) (p : page) :
  (∀ i x, dom (body i x) = dom x) → dom (forEach nodes body p) = dom p.
Proof.
  intros Hbody. apply (forEach_ind (fun q => dom q = dom p)); [done|].
  intros i x <-. apply Hbody.
Qed.

Lemma initializeApp_normal (p : page) : fst (V2.initializeApp p) = Normal tt.
Proof.
  unfold V2.initializeApp, try_catch, run.
  by destruct (V2.setup_steps p) as [[[]|e] q].
Qed.

Lemma bind_run_fst {A : Type} (f : page → page) (k : js A) (p : page) :
  fst ((run f >> k) p) = fst (k (f p)).
Proof. done. Qed.

Lemma after_features_normal (p : page) : fst (after_features p) = Normal tt.
Proof.
  unfold after_features. rewrite !bind_run_fst.
  unfold V2.init. destruct (loading _); [done|apply initializeApp_normal].
Qed.

Lemma features_outcome (p : page) :
  fst (V2.initProfessionalFeatures p)
  = match document_body (dom p) with
    | Some _ => Normal tt
    | None => Thrown (null_deref "document.body.appendChild")
    end.
Proof.
  unfold V2.initProfessionalFeatures. rewrite !bind_run_fst.
  unfold new_LoadingAnimation, bind, append_to_body.
  assert (Hd : dom (new_KeyboardNavigation (new_PerformanceObserver p)) = dom p).
  { unfold new_KeyboardNavigation, new_PerformanceObserver. cbn [dom addEventListener set_listeners].
    by apply forEach_dom. }
  rewrite Hd. by destruct (document_body (dom p)).
Qed.

(** X15. The top level of the second version runs to its end exactly when
    [document.body] exists: it raises, uncaught, when the body is missing,
    and nothing else in it can raise. *)
Theorem script_completes_iff_body (p : page) :
  fst (V2.script p) = Normal tt ↔ is_Some (document_body (dom p)).
Proof.
  rewrite script_split. unfold bind.
  pose proof (features_outcome p) as Hf.
  destruct (V2.initProfessionalFeatures p) as [[[]|e] q]; simpl in Hf.
  - rewrite after_features_normal. split; [|done]. intros _.
    destruct (document_body (dom p)); [eauto|done].
  - simpl. split; [done|]. intros [b Hb]. by rewrite Hb in Hf.
Qed.

(** ** What start-up leaves of the header throttle *)

Lemma keeps_throttle_refl (p : page) : keeps_throttle p p.
Proof. by split. Qed.

Lemma keeps_throttle_trans (p q r : page) :
  keeps_throttle p q → keeps_throttle q r → keeps_throttle p r.
Proof. intros [A1 A2] [B1 B2]. split; [congruence|]. intros H. by apply B2, A2. Qed.

Lemma keeps_run (f : page → page) : (∀ p, keeps_throttle p (f p)) → keeps (run f).
Proof. intros H p. apply H. Qed.

Lemma keeps_bind (m k : js unit) : keeps m → keeps k → keeps (m >> k).
Proof.
  intros Hm Hk p. unfold bind. specialize (Hm p).
  destruct (m p) as [[[]|e] q]; simpl in *; [|done].
  eapply keeps_throttle_trans; [exact Hm|apply Hk].
Qed.

Lemma keeps_try (body : js unit) (h : exn → js unit) :
  keeps body → (∀ e, keeps (h e)) → keeps (try_catch body h).
Proof.
  intros Hb Hh p. unfold try_catch. specialize (Hb p).
  destruct (body p) as [[[]|e] q]; simpl in *; [done|].
  eapply keeps_throttle_trans; [exact Hb|apply Hh].
Qed.

Lemma forEach_keeps (nodes : list nat) (body : nat → page → page) (p : page) :
  (∀ i x, keeps_throttle x (body i x)) → keeps_throttle p (forEach nodes body p).
Proof.
  intros Hbody. apply (forEach_ind (keeps_throttle p)); [apply keeps_throttle_refl|].
  intros i x Hx. eapply keeps_throttle_trans; [exact Hx|apply Hbody].
Qed.

Lemma add_class_if_found_throttle (c : string) (t : option nat) (p : page) :
  rafQueue (add_class_if_found c t p) = rafQueue p
  ∧ ticking (add_class_if_found c t p) = ticking p.
Proof. by destruct t. Qed.

Lemma initRevealAnimations_keeps (p : page) : keeps_throttle p (initRevealAnimations p).
Proof.
  assert (H : rafQueue (initRevealAnimations p) = rafQueue p
              ∧ ticking (initRevealAnimations p) = ticking p).
  { unfold initRevealAnimations. cbn zeta.
    repeat (apply (forEach_ind (fun q => rafQueue q = rafQueue p ∧ ticking q = ticking p));
            [|by intros i x [<- <-]]).
    repeat match goal with
           | |- context [add_class_if_found ?c ?t ?q] =>
               destruct (add_class_if_found_throttle c t q) as [-> ->]
           end.
    done. }
  destruct H as [H1 H2]. split; [done|]. by rewrite H2.
Qed.

Lemma smoothScroll_keeps (p : page) : keeps_throttle p (smoothScroll p).
Proof.
  unfold smoothScroll. destruct (navLinks p); [apply keeps_throttle_refl|].
  apply forEach_keeps. by split.
Qed.

Lemma lazyLoadImages_keeps (p : page) : keeps_throttle p (lazyLoadImages p).
Proof. unfold lazyLoadImages. apply forEach_keeps. by split. Qed.

Lemma handleError_keeps (p : page) : keeps_throttle p (handleError p).
Proof.
  unfold handleError. cbn zeta.
  eapply keeps_throttle_trans; [|by split].
  eapply keeps_throttle_trans; [|apply forEach_keeps; by split]. by split.
Qed.

Lemma enhanceAccessibility_keeps : keeps enhanceAccessibility.
Proof.
  intros p. unfold enhanceAccessibility. cbn [navToggle addEventListener set_listeners].
  destruct (navToggle p); by split.
Qed.

Lemma initializeApp_keeps : keeps V2.initializeApp.
Proof.
  unfold V2.initializeApp, V2.setup_steps. apply keeps_try.
  - repeat (apply keeps_bind; [first [apply enhanceAccessibility_keeps | apply keeps_run]|]);
      try apply keeps_run;
      first [ apply initRevealAnimations_keeps | apply smoothScroll_keeps
            | apply lazyLoadImages_keeps | apply handleError_keeps
            | (intros p; by split) ].
  - intros e. apply keeps_run. intros p. by split.
Qed.

Lemma init_keeps : keeps V2.init.
Proof.
  intros p. unfold V2.init. destruct (loading p); [by split|apply initializeApp_keeps].
Qed.

Lemma features_keep : keeps V2.initProfessionalFeatures.
Proof.
  unfold V2.initProfessionalFeatures, new_LoadingAnimation.
  repeat (apply keeps_bind); try apply keeps_run.
  - intros p. unfold new_PerformanceObserver. apply forEach_keeps. by split.
  - intros p. by split.
  - intros p. unfold append_to_body. destruct (document_body (dom p)); by split.
  - intros p. by split.
  - intros p. unfold new_AnalyticsTracker. cbn zeta.
    eapply keeps_throttle_trans; [|apply forEach_keeps; by split].
    eapply keeps_throttle_trans; [|apply forEach_keeps; by split]. by split.
  - intros p. by split.
Qed.

Lemma after_features_settles (p : page) :
  rafQueue (snd (after_features p)) = rafQueue p ∧ ticking (snd (after_features p)) = false.
Proof.
  unfold after_features.
  set (tail := run (addEventListener Window "scroll" OnScroll) >> _).
  assert (Htail : keeps tail).
  { unfold tail. repeat (apply keeps_bind; [apply keeps_run|]); try apply init_keeps.
    - intros q. by split.
    - intros q. by split.
    - intros q. destruct (backToTopButton q); by split. }
  unfold bind at 1 2 3 4. unfold run at 1 2 3 4. cbn beta iota.
  match goal with |- context [tail ?q] => destruct (Htail q) as [Hr Ht] end.
  rewrite Hr. destruct (updateHeader_fields
    (if loading (if loading (bind_globals p)
                 then addEventListener Document "DOMContentLoaded" InitMobileMenu (bind_globals p)
                 else V2.initMobileMenu (bind_globals p))
     then addEventListener Document "DOMContentLoaded" InitMobileMenuClose
            (if loading (bind_globals p)
             then addEventListener Document "DOMContentLoaded" InitMobileMenu (bind_globals p)
             else V2.initMobileMenu (bind_globals p))
     else V2.initMobileMenuClose
            (if loading (bind_globals p)
             then addEventListener Document "DOMContentLoaded" InitMobileMenu (bind_globals p)
             else V2.initMobileMenu (bind_globals p)))) as (F1 & _ & _ & F4 & _ & _).
  split.
  - rewrite F4.
    assert (Hk : ∀ q, rafQueue (V2.initMobileMenuClose q) = rafQueue q).
    { intros q. unfold V2.initMobileMenuClose. apply (forEach_keeps _ _ q). by split. }
    assert (Hm : ∀ q, rafQueue (V2.initMobileMenu q) = rafQueue q).
    { intros q. unfold V2.initMobileMenu. by destruct (navToggle q), (navMenu q). }
    destruct (loading (bind_globals p)); cbn [loading addEventListener set_listeners];
      destruct (loading _); cbn [rafQueue addEventListener set_listeners];
      rewrite ?Hk, ?Hm; done.
  - apply Ht. exact F1.
Qed.

(** X16. When the top level of the second version has run to its end, the
    header throttle is at rest: [ticking] is false and the script has
    requested no animation frame.  This is the state from which the frame
    properties of [onScroll] are proved. *)
Theorem script_settles_throttle (p p' : page) :
  V2.script p = (Normal tt, p') →
  ticking p' = false ∧ rafQueue p' = rafQueue p ∧ (rafQueue p = [] → settled p' = p').
Proof.
  rewrite script_split. unfold bind. intros H.
  pose proof (features_keep p) as [Hr _].
  destruct (V2.initProfessionalFeatures p) as [[[]|e] q]; [|done]. simpl in Hr.
  destruct (after_features_settles q) as [Hr' Ht'].
  rewrite H in Hr', Ht'. simpl in Hr', Ht'.
  assert (Hraf : rafQueue p' = rafQueue p) by congruence.
  split; [done|]. split; [done|].
  intros Hnil. rewrite Hnil in Hraf. clear H Hr Hr'. unfold settled.
  destruct p'. cbn in Ht', Hraf. subst. reflexivity.
Qed.

Lemma script_settles_throttle_witness :
  let p := fresh_page (body_with toggle_button) 0 800 false in
  ticking (snd (V2.script p)) = false
  ∧ rafQueue (snd (V2.script p)) = rafQueue p
  ∧ (rafQueue p = [] → settled (snd (V2.script p)) = snd (V2.script p)).
Proof.
  apply (script_settles_throttle (fresh_page (body_with toggle_button) 0 800 false)).
  vm_compute. reflexivity.
Defined.

(** ** The user id of [ErrorHandler] *)

Lemma getItem_setItem (k v : string) (store : list (string * string)) :
  ErrorHandler.getItem k (ErrorHandler.setItem k v store) = Some v.
Proof. unfold ErrorHandler.getItem, ErrorHandler.setItem. simpl. by rewrite String.eqb_refl. Qed.

Lemma getUserId_after (env env' : environment) (h : ErrorHandler.t)
    (es ls : list ErrorHandler.errorInfo) :
  ErrorHandler.getUserId env'
    (ErrorHandler.Make es ls (ErrorHandler.localStorage (snd (ErrorHandler.getUserId env h))))
  = (fst (ErrorHandler.getUserId env h),
     ErrorHandler.Make es ls (ErrorHandler.localStorage (snd (ErrorHandler.getUserId env h)))).
Proof.
  unfold ErrorHandler.getUserId at 2 3 4.
  destruct (ErrorHandler.getItem "userId" (ErrorHandler.localStorage h)) as [[|c s]|] eqn:Hg;
    cbn [fst snd ErrorHandler.localStorage]; unfold ErrorHandler.getUserId;
    cbn [ErrorHandler.localStorage]; rewrite ?getItem_setItem, ?Hg; reflexivity.
Qed.

(** X17. [getUserId] is stable: once it has returned an id, every later
    call returns the same id and leaves the store alone, whatever random
    text the later calls would have drawn. *)
Theorem getUserId_stable (env env' : environment) (h : ErrorHandler.t) :
  ErrorHandler.getUserId env' (snd (ErrorHandler.getUserId env h))
  = ErrorHandler.getUserId env h.
Proof.
  pose proof (getUserId_after env env' h
                (ErrorHandler.errors (snd (ErrorHandler.getUserId env h)))
                (ErrorHandler.logged (snd (ErrorHandler.getUserId env h)))) as H.
  destruct (ErrorHandler.getUserId env h) as [id [es ls store]]. exact H.
Qed.

Lemma getUserId_fields (env : environment) (h : ErrorHandler.t) :
  ErrorHandler.errors (snd (ErrorHandler.getUserId env h)) = ErrorHandler.errors h
  ∧ ErrorHandler.logged (snd (ErrorHandler.getUserId env h)) = ErrorHandler.logged h.
Proof.
  unfold ErrorHandler.getUserId.
  by destruct (ErrorHandler.getItem _ _) as [[|c s]|].
Qed.

Lemma handleError_errors (env : environment) (error : option (option string * option string))
    (context : string) (h : ErrorHandler.t) :
  ∃ new, ErrorHandler.errors (snd (ErrorHandler.handleError env error context h))
         = ErrorHandler.errors h ++ new
    ∧ Forall (fun info => ErrorHandler.userId info = fst (ErrorHandler.getUserId env h)) new
    ∧ (new = [] → snd (ErrorHandler.handleError env error context h) = h)
    ∧ (new ≠ [] →
       ∀ env', ErrorHandler.getUserId env' (snd (ErrorHandler.handleError env error context h))
               = (fst (ErrorHandler.getUserId env h),
                  snd (ErrorHandler.handleError env error context h))).
Proof.
  unfold ErrorHandler.handleError. destruct error as [[message stack]|].
  - pose proof (getUserId_fields env h) as [He _].
    pose proof (fun env' es ls => getUserId_after env env' h es ls) as Hafter.
    destruct (ErrorHandler.getUserId env h) as [id h1]. cbn [fst snd] in *.
    eexists [_]. rewrite He. split; [reflexivity|]. split; [by constructor|].
    split; [done|]. intros _ env'. apply Hafter.
  - exists []. rewrite app_nil_r. split; [done|]. split; [constructor|]. split; done.
Qed.

(** X18. All the errors that a run of [handleError] calls records carry
    one and the same [userId], however the random draws of the calls
    differ; a call with a null error raises and records nothing. *)
Theorem handleError_one_userId
    (calls : list (environment * option (option string * option string) * string))
    (h : ErrorHandler.t) :
  ∃ id new, ErrorHandler.errors (ErrorHandler.handle_all calls h) = ErrorHandler.errors h ++ new
    ∧ Forall (fun info => ErrorHandler.userId info = id) new.
Proof.
  unfold ErrorHandler.handle_all.
  assert (Hgen : ∀ calls h id,
             (∀ env', ErrorHandler.getUserId env' h = (id, h)) →
             ∃ new, ErrorHandler.errors
                      (foldl (fun acc call =>
                                snd (ErrorHandler.handleError (fst (fst call)) (snd (fst call))
                                       (snd call) acc)) h calls)
                    = ErrorHandler.errors h ++ new
               ∧ Forall (fun info => ErrorHandler.userId info = id) new).
  { clear. induction calls as [|[[env error] context] r IH]; intros h id Hid; simpl.
    - exists []. by rewrite app_nil_r.
    - destruct (handleError_errors env error context h) as (new & Hn & Hall & Hempty & Hstable).
      rewrite Hid in Hall, Hstable. simpl in Hall, Hstable.
      destruct (decide (new = [])) as [->|Hne].
      + assert (Hsame : snd (ErrorHandler.handleError env error context h) = h)
          by (by apply Hempty).
        rewrite Hsame. by apply IH.
      + destruct (IH _ id (Hstable Hne)) as (new' & Hn' & Hall').
        exists (new ++ new'). rewrite Hn', Hn, app_assoc. split; [done|].
        by apply Forall_app. }
  induction calls as [|[[env error] context] r IH] in h |- *; simpl.
  - exists "", []. by rewrite app_nil_r.
  - destruct (handleError_errors env error context h) as (new & Hn & Hall & Hempty & Hstable).
    destruct (decide (new = [])) as [->|Hne].
    + destruct (IH (snd (ErrorHandler.handleError env error context h))) as (id & new' & Hn' & Hall').
      exists id, new'. rewrite Hn', Hn, app_nil_r. done.
    + destruct (Hgen r _ _ (Hstable Hne)) as (new' & Hn' & Hall').
      exists (fst (ErrorHandler.getUserId env h)), (new ++ new').
      rewrite Hn', Hn, app_assoc. split; [done|]. by apply Forall_app.
Qed.

Example handleError_null_error :
  ∀ env context h,
    ErrorHandler.handleError env None context h = (Thrown (null_deref "error.message"), h).
Proof. reflexivity. Qed.

(** ** Section views *)

Lemma tracked_after (e : element) :
  AnalyticsTracker.tracked (with_attribute "data-tracked" "true" e) = true.
Proof. unfold AnalyticsTracker.tracked. by rewrite attribute_with_attribute. Qed.

(** X19. A section view is tracked at most once: after the observer
    callback has handled an intersecting entry for a section, any further
    entry for the same section changes neither the page nor the list of
    events. *)
Theorem sectionView_tracked_once (env env' : environment) (target : nat) (again : bool)
    (st : page * list AnalyticsTracker.event) :
  AnalyticsTracker.sectionView_entry env' target again
    (AnalyticsTracker.sectionView_entry env target true st)
  = AnalyticsTracker.sectionView_entry env target true st.
Proof.
  unfold AnalyticsTracker.sectionView_entry at 2 3.
  destruct (dom (fst st) !! target) as [e|] eqn:He.
  - simpl andb. destruct (AnalyticsTracker.tracked e) eqn:Htr; simpl negb; cbv iota.
    + unfold AnalyticsTracker.sectionView_entry. rewrite He, Htr. by rewrite andb_false_r.
    + unfold AnalyticsTracker.sectionView_entry, AnalyticsTracker.trackEvent.
      cbn [fst snd dom console_log set_console update_node set_dom].
      rewrite list_lookup_alter_eq, He. cbn -[AnalyticsTracker.tracked with_attribute].
      rewrite tracked_after. by rewrite andb_false_r.
  - unfold AnalyticsTracker.sectionView_entry. by rewrite He.
Qed.

Example sectionView_label :
  let env := Build_environment "https://example.org/" "2024-01-01T00:00:00.000Z" "UA" "abc" in
  let d := [Element "section" "about" ["section"] [] 1 0;
            Element "section" "" ["hero"; "section"] [] 1 0] in
  let st := AnalyticsTracker.sectionView_entry env 1 true
              (AnalyticsTracker.sectionView_entry env 0 true
                 (AnalyticsTracker.sectionView_entry env 0 true (fresh_page d 0 800 false, []))) in
  map AnalyticsTracker.label (snd st) = ["about"; "hero section"].
Proof. reflexivity. Qed.

(** ** Lazy images *)

Lemma forEach_lazy_dom (nodes : list nat) (p : page) :
  dom (forEach nodes (fun img acc => observe LazyImageObserver img (add_class "loading" img acc)) p)
  = forEach nodes (fun i acc => alter (with_classes (add ["loading"])) i acc) (dom p).
Proof.
  unfold forEach. revert p. induction nodes as [|i r IH]; intros p; simpl; [done|].
  by rewrite IH.
Qed.

Lemma forEach_lazy_observed (nodes : list nat) (p : page) (i : nat) :
  i ∈ nodes →
  (LazyImageObserver, i)
  ∈ observed (forEach nodes
                (fun img acc => observe LazyImageObserver img (add_class "loading" img acc)) p).
Proof.
  unfold forEach. intros Hin. revert p.
  assert (Hkeep : ∀ r p x,
             x ∈ observed p →
             x ∈ observed (foldl (fun acc img =>
                                    observe LazyImageObserver img (add_class "loading" img acc))
                             p r)).
  { induction r as [|j r IH]; intros p x Hx; simpl; [done|].
    apply IH. cbn. apply elem_of_app. by left. }
  induction nodes as [|j r IH]; intros p; [inversion Hin|]. simpl.
  apply elem_of_cons in Hin as [->|Hin].
  - apply Hkeep. cbn. apply elem_of_app. right. by left.
  - by apply IH.
Qed.

Lemma attribute_with_classes (k : string) (f : list string → list string) (e : element) :
  attribute k (with_classes f e) = attribute k e.
Proof. done. Qed.

Lemma unobserve_gone (o : observer) (i : nat) (p : page) : (o, i) ∉ observed (unobserve o i p).
Proof.
  unfold unobserve. cbn [observed set_observed]. intros Hin.
  apply list_elem_of_In, List.filter_In in Hin as [_ Hf].
  simpl in Hf. destruct o; by rewrite Nat.eqb_refl in Hf.
Qed.

(** X20. An image with a [data-src] that did not carry ['loading'] gets the
    class from [lazyLoadImages] and is observed; once the observer reports
    it intersecting, it has its [src] set to the [data-src] value, has
    exactly the classes it started with, and is observed no more. *)
Theorem lazy_image_loads (p : page) (i : nat) (e : element) (v : string) :
  dom p !! i = Some e →
  localName e = "img" →
  attribute "data-src" e = Some v →
  has_class "loading" e = false →
  (∃ e1, dom (lazyLoadImages p) !! i = Some e1 ∧ has_class "loading" e1 = true)
  ∧ (LazyImageObserver, i) ∈ observed (lazyLoadImages p)
  ∧ (∃ e2, dom (lazyImage_entry i true (lazyLoadImages p)) !! i = Some e2
       ∧ attribute "src" e2 = Some v
       ∧ classList e2 = classList e)
  ∧ (LazyImageObserver, i) ∉ observed (lazyImage_entry i true (lazyLoadImages p)).
Proof.
  intros He Htag Hsrc Hload.
  assert (Hsel : lazy_image e = true).
  { unfold lazy_image. rewrite (is_tag_true _ _ Htag). simpl.
    unfold has_attribute. unfold attribute in Hsrc.
    destruct (List.find _ (attributes e)) as [kv|] eqn:Hf; [|done].
    apply List.find_some in Hf as [Hin Hk].
    apply List.existsb_exists. eauto. }
  assert (H1 : dom (lazyLoadImages p) !! i = Some (with_classes (add ["loading"]) e)).
  { unfold lazyLoadImages. cbn zeta. rewrite forEach_lazy_dom.
    rewrite forEach_select_lookup by done. rewrite He.
    cbn [fmap option_fmap option_map]. unfold lazy_image in Hsel. by rewrite Hsel. }
  split; [|split].
  - eexists; split; [exact H1|]. apply grows_add.
  - unfold lazyLoadImages. cbn zeta. apply forEach_lazy_observed.
    apply querySelectorAll_spec. eauto.
  - unfold lazyImage_entry. rewrite H1.
    split; [|apply unobserve_gone].
    cbn [dom unobserve set_observed update_node set_dom].
    rewrite !list_lookup_alter_eq, H1. cbn [fmap option_fmap option_map].
    eexists; split; [reflexivity|]. split.
    + rewrite attribute_with_classes, attribute_with_attribute.
      unfold dataset_src. by rewrite attribute_with_classes, Hsrc.
    + cbn [classList with_classes with_attribute].
      change (add ["loading"] (classList e)) with (add_token (classList e) "loading").
      unfold add_token. unfold has_class in Hload. rewrite Hload.
      rewrite remove_app, remove_absent.
      * replace (remove ["loading"] ["loading"]) with (@nil string) by reflexivity.
        apply app_nil_r.
      * intros x Hx. unfold contains in Hx. simpl in Hx. rewrite orb_false_r in Hx.
        apply String.eqb_eq in Hx. by subst x.
Qed.

Lemma lazy_image_loads_witness :
  (∃ e1, dom (lazyLoadImages photo_page) !! 0%nat = Some e1 ∧ has_class "loading" e1 = true)
  ∧ (LazyImageObserver, 0%nat) ∈ observed (lazyLoadImages photo_page)
  ∧ (∃ e2, dom (lazyImage_entry 0 true (lazyLoadImages photo_page)) !! 0%nat = Some e2
       ∧ attribute "src" e2 = Some "me.jpg"
       ∧ classList e2 = ["photo"])
  ∧ (LazyImageObserver, 0%nat) ∉ observed (lazyImage_entry 0 true (lazyLoadImages photo_page)).
Proof.
  apply (lazy_image_loads photo_page 0
           (Element "img" "" ["photo"] [("data-src", "me.jpg"); ("alt", "me")] 2 0) "me.jpg");
    reflexivity.
Defined.
(** ** The typing effect *)

Lemma take_eq_text (k : nat) (s : js_string) :
  bool_decide (take k s = s) = (length s <=? k)%nat.
Proof.
  destruct (Nat.leb_spec (length s) k) as [Hle|Hlt].
  - apply bool_decide_eq_true. by apply take_ge.
  - apply bool_decide_eq_false. intros Heq. apply (f_equal length) in Heq.
    rewrite length_take in Heq. lia.
Qed.

Lemma type_display (w : TypeWriter.t) :
  TypeWriter.text (fst (TypeWriter.type w)) = TypeWriter.text w
  ∧ TypeWriter.display (fst (TypeWriter.type w)) `prefix_of` TypeWriter.text w.
Proof.
  unfold TypeWriter.type, TypeWriter.substring0.
  repeat match goal with |- context [if ?b then _ else _] => destruct b end;
    simpl; (split; [done|]); apply prefix_take.
Qed.

Lemma fire_display (st : TypeWriter.t * (Z * TypeWriter.timer)) :
  TypeWriter.text (fst (TypeWriter.fire st)) = TypeWriter.text (fst st)
  ∧ TypeWriter.display (fst (TypeWriter.fire st)) `prefix_of` TypeWriter.text (fst st).
Proof.
  unfold TypeWriter.fire. destruct (snd (snd st)).
  - apply (type_display (TypeWriter.Make _ _ _ true _ _)).
  - apply type_display.
Qed.

(** X21. Whatever the text and however long the effect has run, the
    element shows a prefix of the text: [type] never writes anything
    else. *)
Theorem typewriter_shows_prefix (text : js_string) (speed : Z) (n : nat) :
  TypeWriter.display (fst (typing_run text speed n)) `prefix_of` text.
Proof.
  assert (H : TypeWriter.text (fst (typing_run text speed n)) = text
              ∧ TypeWriter.display (fst (typing_run text speed n)) `prefix_of` text).
  { unfold typing_run. induction n as [|n [IHt IHd]]; cbn [Nat.iter].
    - apply (type_display (TypeWriter.Make text speed 0 false 2000 [])).
    - destruct (fire_display (Nat.iter n TypeWriter.fire (TypeWriter.create text speed)))
        as [H1 H2].
      rewrite IHt in H1, H2. done. }
  apply H.
Qed.

Lemma type_forward (text : js_string) (speed : Z) (k : nat) (shown : js_string) :
  TypeWriter.type (TypeWriter.Make text speed (Z.of_nat k) false 2000 shown)
  = if (length text <=? S k)%nat
    then (TypeWriter.Make text speed (Z.of_nat k) false 2000 text,
          (2000%Z, TypeWriter.PauseThenType))
    else (typing text speed (S k), (speed, TypeWriter.Type_)).
Proof.
  unfold TypeWriter.type, TypeWriter.substring0. cbn [TypeWriter.isDeleting TypeWriter.index
    TypeWriter.text TypeWriter.speed TypeWriter.pauseDuration negb andb].
  replace (Z.to_nat (Z.of_nat k + 1)) with (S k) by lia.
  rewrite take_eq_text.
  destruct (Nat.leb_spec (length text) (S k)) as [Hle|Hlt].
  - by rewrite take_ge.
  - unfold typing. do 2 f_equal. lia.
Qed.

(** X22. While it types, the effect shows one more code unit at every
    call: the call number [k] shows the first [k] code units and waits
    [speed] milliseconds; the call that completes the text (the first one
    for a text of at most one code unit) waits for the pause of 2000. *)
Theorem typewriter_types_text (text : js_string) (speed : Z) (k : nat) :
  (S k < length text)%nat →
  typing_run text speed k = (typing text speed (S k), (speed, TypeWriter.Type_))
  ∧ typing_run text speed (length text - 1)
    = (TypeWriter.Make text speed (Z.of_nat (length text - 1)) false 2000 text,
       (2000%Z, TypeWriter.PauseThenType)).
Proof.
  intros Hk.
  assert (Hstep : ∀ j, (S j < length text)%nat →
            typing_run text speed j = (typing text speed (S j), (speed, TypeWriter.Type_))).
  { induction j as [|j IH]; intros Hj.
    - unfold typing_run. cbn [Nat.iter]. unfold TypeWriter.create.
      pose proof (type_forward text speed 0 []) as H0. change (Z.of_nat 0) with 0%Z in H0. rewrite H0.
      destruct (Nat.leb_spec (length text) 1); [lia|done].
    - unfold typing_run in *. rewrite Nat.iter_succ, IH by lia.
      unfold TypeWriter.fire. cbn [fst snd]. unfold typing at 1. rewrite type_forward.
      destruct (Nat.leb_spec (length text) (S (S j))); [lia|done]. }
  split; [by apply Hstep|].
  destruct (length text) as [|[|n]] eqn:Hlen; [lia|lia|].
  replace (S (S n) - 1)%nat with (S n) by lia.
  unfold typing_run in *. rewrite Nat.iter_succ, (Hstep n) by lia.
  unfold TypeWriter.fire. cbn [fst snd]. unfold typing at 1. rewrite type_forward, Hlen.
  destruct (Nat.leb_spec (S (S n)) (S (S n))); [done|lia].
Qed.

Lemma typewriter_types_text_witness :
  typing_run (code_units "Hello") 100 2
  = (typing (code_units "Hello") 100 3, (100%Z, TypeWriter.Type_))
  ∧ typing_run (code_units "Hello") 100 4
    = (TypeWriter.Make (code_units "Hello") 100 4 false 2000 (code_units "Hello"),
       (2000%Z, TypeWriter.PauseThenType)).
Proof.
  apply (typewriter_types_text (code_units "Hello") 100 2). simpl. lia.
Defined.

(** One cycle on a text of three code units: after the pause the first
    deleting call already shows one code unit only, because the index
    stopped one short of the length. *)
Example typewriter_cycle :
  (fun n => TypeWriter.display (fst (typing_run (code_units "abc") 100 n))) <$> seq 0 11
  = code_units <$> ["a"; "ab"; "abc"; "a"; ""; "a"; "ab"; "abc"; "a"; ""; "a"].
Proof. vm_compute. reflexivity. Qed.

(** A character outside the basic plane takes two code units, and the
    effect shows its first half alone for one step. *)
Example typewriter_splits_surrogate_pair :
  TypeWriter.display (fst (typing_run [0xD83D; 0xDE00]%N 100 0)) = [0xD83D%N].
Proof. reflexivity. Qed.
(** ** [debounce] and the in-view observer *)

Lemma debounced_calls_snoc {A : Type} (firstTimer : nat) (calls : list A) (last : A) :
  debounced_calls firstTimer (calls ++ [last])
  = Debounce.Make (Some (firstTimer + length calls))
                  [(firstTimer + length calls, last)]%nat
                  (S (firstTimer + length calls)).
Proof.
  assert (Hcall : ∀ (l : list A) (x : A),
            debounced_calls firstTimer (l ++ [x])
            = Debounce.call x (debounced_calls firstTimer l)).
  { intros l x. unfold debounced_calls. by rewrite foldl_app. }
  revert last. induction calls as [|a calls IH] using rev_ind; intros last.
  - unfold debounced_calls. simpl. unfold Debounce.call. simpl.
    by rewrite Nat.add_0_r.
  - rewrite Hcall, IH. unfold Debounce.call.
    cbn [Debounce.timeout Debounce.pending Debounce.nextTimer Debounce.clearTimeout
         List.filter fst]. rewrite Nat.eqb_refl. cbn [negb app].
    rewrite length_app. cbn [length].
    by replace (firstTimer + (length calls + 1))%nat with (S (firstTimer + length calls)) by lia.
Qed.

(** X23. However many times the debounced function is called before a
    timer fires, one timer is pending afterwards, the one of the last
    call; when it fires, [func] is called once, with the arguments of the
    last call, and no timer is left. *)
Theorem debounce_keeps_last_call {A : Type} (firstTimer : nat) (calls : list A) (last : A) :
  let d := debounced_calls firstTimer (calls ++ [last]) in
  let id := (firstTimer + length calls)%nat in
  Debounce.pending d = [(id, last)]
  ∧ snd (Debounce.fire id d) = [last]
  ∧ Debounce.pending (fst (Debounce.fire id d)) = []
  ∧ ∀ other, other ≠ id → Debounce.fire other d = (d, []).
Proof.
  cbn zeta. rewrite debounced_calls_snoc. unfold Debounce.fire.
  cbn [Debounce.pending Debounce.timeout Debounce.nextTimer List.find List.filter fst snd
       Debounce.clearTimeout].
  rewrite Nat.eqb_refl. cbn [negb fst snd Debounce.pending Debounce.clearTimeout List.filter].
  repeat split. intros other Hne.
  by rewrite (proj2 (Nat.eqb_neq _ _)) by done.
Qed.

Example debounce_three_calls :
  let d := debounced_calls 7 ["a"; "b"; "c"] in
  Debounce.pending d = [(9%nat, "c")]
  ∧ Debounce.fire 7 d = (d, [])
  ∧ snd (Debounce.fire 9 d) = ["c"].
Proof. repeat split. Qed.

Lemma find_filter_out (k : string) (l : list (string * string)) :
  List.find (fun kv => String.eqb (fst kv) k)
            (List.filter (fun kv => negb (String.eqb (fst kv) k)) l) = None.
Proof.
  induction l as [|x l IH]; simpl; [done|].
  destruct (String.eqb (fst x) k) eqn:Hx; simpl; [done|]. by rewrite Hx.
Qed.

Lemma add_in_view_twice (cl : list string) :
  add ["in-view"] (add ["in-view"] cl) = add ["in-view"] cl.
Proof. unfold add. simpl. apply add_token_twice. Qed.

Lemma alter_alter {A : Type} (f g : A → A) (i : nat) (l : list A) :
  alter f i (alter g i l) = alter (fun x => f (g x)) i l.
Proof.
  apply list_eq. intros j. destruct (decide (j = i)) as [->|Hne].
  - rewrite !list_lookup_alter_eq. by destruct (l !! i).
  - by rewrite !list_lookup_alter_ne by done.
Qed.

Lemma inView_entry_alter (target : nat) (p : page) :
  inView_entry target true p = set_dom (alter inView_element target (dom p)) p.
Proof.
  unfold inView_entry, update_node. cbn [dom set_dom].
  rewrite list_lookup_alter_eq. destruct (dom p !! target) as [e|] eqn:He; simpl.
  - assert (Hins : ∀ f, alter f target (dom p) = <[target := f e]> (dom p)).
    { intros f. apply list_eq. intros i. destruct (decide (i = target)) as [->|Hne].
      - rewrite list_lookup_alter_eq, He. simpl.
        by rewrite list_lookup_insert_eq by (by eapply lookup_lt_Some).
      - by rewrite list_lookup_alter_ne, list_lookup_insert_ne by done. }
    rewrite (Hins inView_element). unfold inView_element. cbn zeta.
    destruct (attribute "data-src" (with_classes (add ["in-view"]) e)) as [v|];
      [|by rewrite Hins].
    destruct (is_tag "img" _ && negb (String.eqb v "")); [|by rewrite Hins].
    cbn [dom set_dom]. rewrite !alter_alter. by rewrite Hins.
  - by rewrite !alter_absent by done.
Qed.

Lemma inView_element_twice (e : element) :
  inView_element (inView_element e) = inView_element e.
Proof.
  assert (Hcl : ∀ x, with_classes (add ["in-view"]) (with_classes (add ["in-view"]) x)
                     = with_classes (add ["in-view"]) x).
  { intros x. unfold with_classes. cbn [localName ident classList attributes depth rectTop].
    by rewrite add_in_view_twice. }
  unfold inView_element. cbn zeta.
  change (attribute "data-src" (with_classes (add ["in-view"]) e))
    with (attribute "data-src" e).
  change (is_tag "img" (with_classes (add ["in-view"]) e)) with (is_tag "img" e).
  destruct (attribute "data-src" e) as [v|] eqn:Ha.
  - destruct (is_tag "img" e && negb (String.eqb v "")) eqn:Hc.
    + assert (Hr : with_classes (add ["in-view"])
                     (remove_attribute "data-src"
                        (with_attribute "src" v (with_classes (add ["in-view"]) e)))
                   = remove_attribute "data-src"
                       (with_attribute "src" v (with_classes (add ["in-view"]) e))).
      { unfold with_classes, remove_attribute, with_attribute.
        cbn [localName ident classList attributes depth rectTop].
        by rewrite add_in_view_twice. }
      rewrite Hr.
      assert (Hnone : attribute "data-src"
                        (remove_attribute "data-src"
                           (with_attribute "src" v (with_classes (add ["in-view"]) e)))
                      = None).
      { unfold attribute, remove_attribute. cbn [attributes]. by rewrite find_filter_out. }
      by rewrite Hnone.
    + rewrite Hcl.
      change (attribute "data-src" (with_classes (add ["in-view"]) e))
        with (attribute "data-src" e).
      change (is_tag "img" (with_classes (add ["in-view"]) e)) with (is_tag "img" e).
      by rewrite Ha, Hc.
  - rewrite Hcl.
    change (attribute "data-src" (with_classes (add ["in-view"]) e))
      with (attribute "data-src" e).
    by rewrite Ha.
Qed.

(** X24. A second report of the in-view observer for the same element
    changes nothing: the element keeps the one [in-view] class, and the
    image whose [data-src] was moved to [src] is left alone. *)
Theorem inView_entry_idempotent (target : nat) (isIntersecting : bool) (p : page) :
  inView_entry target isIntersecting (inView_entry target isIntersecting p)
  = inView_entry target isIntersecting p.
Proof.
  destruct isIntersecting; [|done].
  rewrite !inView_entry_alter. unfold set_dom. cbn -[alter]. f_equal.
  rewrite alter_alter. apply list_alter_ext; [|done].
  intros x _. apply inView_element_twice.
Qed.

Example inView_entry_image :
  dom (inView_entry 0 true photo_page)
  = [Element "img" "" ["photo"; "in-view"] [("src", "me.jpg"); ("alt", "me")] 2 0].
Proof. reflexivity. Qed.
